(** * YAWNING-TITAN configuration toolbox: model and verification

    A shallow embedding of [yawning_titan/config/toolbox/core.py]
    (validation results, item properties, config items, config groups)
    and of the entry points of [yawning_titan/game_modes/game_mode.py].

    Python objects are modelled by records, dictionaries by association
    lists kept in insertion order (a Python [dict] iterates in insertion
    order, and both the error tree and the content hash depend on that
    order), mutation by functions returning the updated object, and raised
    exceptions by an explicit [result] type. *)

From Stdlib Require Import String List Bool ZArith Lia PrimFloat.
Import ListNotations.
Open Scope string_scope.
Open Scope list_scope.

Set Implicit Arguments.
Set Warnings "-register-all".

(* ------------------------------------------------------------------ *)
(** ** Python values *)

Module Py.

(** The values a config item can hold. *)
Inductive Value : Type :=
| VNone
| VBool (b : bool)
| VInt (z : Z)
| VFloat (f : float)
| VStr (s : string).

(** The type objects that occur in [allowed_types] and [isinstance]. *)
Inductive PyType : Type := TNoneType | TBool | TInt | TFloat | TStr.

Definition PyType_eqb (a b : PyType) : bool :=
  match a, b with
  | TNoneType, TNoneType | TBool, TBool | TInt, TInt
  | TFloat, TFloat | TStr, TStr => true
  | _, _ => false
  end.

(** [type(val)] *)
Definition type_of (val : Value) : PyType :=
  match val with
  | VNone => TNoneType
  | VBool _ => TBool
  | VInt _ => TInt
  | VFloat _ => TFloat
  | VStr _ => TStr
  end.

(** [issubclass(a, b)] on the five classes above: [bool] derives from
    [int]; there is no other inheritance between them. *)
Definition issubclass (a b : PyType) : bool :=
  match a, b with
  | TBool, TInt => true
  | _, _ => PyType_eqb a b
  end.

(** [isinstance(val, t)] *)
Definition isinstance (val : Value) (t : PyType) : bool :=
  issubclass (type_of val) t.

(** [str(t)] for a type object. *)
Definition str_type (t : PyType) : string :=
  match t with
  | TNoneType => "<class 'NoneType'>"
  | TBool => "<class 'bool'>"
  | TInt => "<class 'int'>"
  | TFloat => "<class 'float'>"
  | TStr => "<class 'str'>"
  end.

(** [val is None] *)
Definition is_None (val : Value) : bool :=
  match val with VNone => true | _ => false end.

(** Truth value of [val] as tested by [if val:]. *)
Definition truthy (val : Value) : bool :=
  match val with
  | VNone => false
  | VBool b => b
  | VInt z => negb (Z.eqb z 0)
  | VFloat f => negb (PrimFloat.eqb f 0%float)
  | VStr s => negb (String.eqb s "")
  end.

(** Truth value of an [Optional[bool]]. *)
Definition truthy_opt (b : option bool) : bool :=
  match b with Some true => true | _ => false end.

(** Exceptions, by class and message. *)
Inductive PyExc : Type :=
| ConfigItemValidationError (msg : string)
| ConfigGroupValidationError (msg : string)
| AttributeError (msg : string)
| IndexError (msg : string)
| ValueError (msg : string)
| TypeError (msg : string).

(** Outcome of a call that may raise. *)
Inductive result (A : Type) : Type :=
| Ok (a : A)
| Raise (e : PyExc).
Arguments Ok {A} a.
Arguments Raise {A} e.

(** Insertion-ordered dictionaries with string keys. *)
Definition dict (V : Type) : Type := list (string * V).

Fixpoint get {V} (k : string) (d : dict V) : option V :=
  match d with
  | [] => None
  | (k', v) :: d' => if String.eqb k k' then Some v else get k d'
  end.

(** [d[k] = v]: an existing key keeps its position, a new key is put
    last. *)
Fixpoint set {V} (k : string) (v : V) (d : dict V) : dict V :=
  match d with
  | [] => [(k, v)]
  | (k', v') :: d' =>
      if String.eqb k k' then (k', v) :: d' else (k', v') :: set k v d'
  end.

(** [if x not in l: l.append(x)] *)
Definition append_if_absent {A} (eqb : A -> A -> bool) (x : A) (l : list A)
  : list A :=
  if existsb (eqb x) l then l else l ++ [x].

Definition keys {V} (d : dict V) : list string := map fst d.
Definition values {V} (d : dict V) : list V := map snd d.

End Py.
Import Py.

(* ------------------------------------------------------------------ *)
(** ** ConfigItemValidation *)

Module ConfigItemValidation.

Record t : Type := mk {
  passed : bool;
  fail_reasons : list string;
  fail_exceptions : list PyExc
}.

(** [ConfigItemValidation()] with the dataclass defaults
    [passed=True, fail_reason=None, fail_exception=None]. *)
Definition new : t := mk true [] [].

(** [add_validation(fail_reason, exception)].  The [print] call of the
    source writes to standard output only and is left out. *)
Definition add_validation (fail_reason : string) (exception : PyExc)
           (self : t) : t :=
  mk false
     (fail_reasons self ++ [fail_reason])
     (fail_exceptions self ++ [exception]).

End ConfigItemValidation.

(* ------------------------------------------------------------------ *)
(** ** ItemTypeProperties *)

Module ItemTypeProperties.

(** The dataclass fields with their declared defaults:
    [allowed_types: List[type] = None], [allow_null: Optional[bool] =
    None] and [default: Optional[Any] = None], with [VNone] for an
    absent default. *)
Record t : Type := mk {
  allowed_types : option (list PyType);
  allow_null : option bool;
  default : Value
}.

Definition null_msg : string :=
  "Value None when allow_null is not permitted.".

(** [f"{val}"] inside the message of the type check.  That message is
    only built for a value that is neither an [int] nor a [float]
    instance, which leaves [None] and strings; numbers are never
    formatted by this module. *)
Definition format_non_number (val : Value) : string :=
  match val with
  | VStr s => s
  | _ => "None"
  end.

(** The message of the type check for a list of allowed types. *)
Definition type_failure (allowed : list PyType) (val : Value) : string :=
  "Value " ++ format_non_number val
  ++ " is of type " ++ str_type (type_of val) ++ ", should be "
  ++ String.concat " or " (map str_type allowed) ++ ".".

(** What [map(str, None)] raises. *)
Definition not_iterable : PyExc :=
  TypeError "'NoneType' object is not iterable".

(** The expression that builds [msg] in the second [try] block:
    [map(str, self.allowed_types)] raises [TypeError] when
    [allowed_types] is [None]. *)
Definition type_msg (self : t) (val : Value) : result string :=
  match allowed_types self with
  | Some allowed => Ok (type_failure allowed val)
  | None => Raise not_iterable
  end.

(** [validate(val)]: the two [try] blocks run one after the other; each
    raises a [ConfigItemValidationError] that its own [except] clause
    records in the result.  The [except] clauses catch no other class,
    so the [TypeError] met while the second message is built leaves
    the method. *)
Definition validate (self : t) (val : Value)
  : result ConfigItemValidation.t :=
  let validation := ConfigItemValidation.new in
  let validation :=
    if negb (truthy_opt (allow_null self)) && is_None val
    then ConfigItemValidation.add_validation
           null_msg (ConfigItemValidationError null_msg) validation
    else validation in
  if negb (existsb (isinstance val) [TInt; TFloat])
  then
    match type_msg self val with
    | Ok msg =>
        Ok (ConfigItemValidation.add_validation
              msg (ConfigItemValidationError msg) validation)
    | Raise e => Raise e
    end
  else Ok validation.

(** [__post_init__]: a truthy default is validated and its first
    failure is raised; an exception that leaves [validate] leaves the
    constructor too. *)
Definition post_init (self : t) : result t :=
  if truthy (default self)
  then
    match validate self (default self) with
    | Ok validated_default =>
        if negb (ConfigItemValidation.passed validated_default)
        then
          match ConfigItemValidation.fail_exceptions validated_default with
          | e :: _ => Raise e
          | [] => Raise (IndexError "list index out of range")
          end
        else Ok self
    | Raise e => Raise e
    end
  else Ok self.

End ItemTypeProperties.

(* ------------------------------------------------------------------ *)
(** ** ConfigItem *)

Module ConfigItem.

(** The dataclass fields.  [validation] holds the result cached by
    [__post_init__]. *)
Record t : Type := mk {
  value : Value;
  doc : option string;
  properties : option ItemTypeProperties.t;
  validation : ConfigItemValidation.t
}.

(** [validate()]: a fresh result computed from the current value; the
    method returns it and stores nothing. *)
Definition validate (self : t) : result ConfigItemValidation.t :=
  match properties self with
  | Some p => ItemTypeProperties.validate p (value self)
  | None => Ok ConfigItemValidation.new
  end.

(** [set_value(value)]: writes [self.__dict__["value"]] directly. *)
Definition set_value (v : Value) (self : t) : t :=
  mk v (doc self) (properties self) (validation self).

(** [self.value = v], that is [__setattr__("value", v)]: the write to
    [__dict__], then a call of [validate()] whose result is dropped. *)
Definition setattr_value (v : Value) (self : t) : result t :=
  let self := mk v (doc self) (properties self) (validation self) in
  match validate self with
  | Ok _ => Ok self
  | Raise e => Raise e
  end.

(** [ConfigItem(value, doc, properties)]: the generated [__init__]
    followed by [__post_init__].  Reading [self.properties.default] or
    calling [self.properties.validate] on [None] raises
    [AttributeError].  The assignment [self.value = self.properties.default]
    goes through [__setattr__], which calls the same
    [properties.validate] on the same value as the next line does. *)
Definition init (v : Value) (d : option string)
           (props : option ItemTypeProperties.t) : result t :=
  match props with
  | None =>
      Raise (AttributeError
               (if is_None v
                then "'NoneType' object has no attribute 'default'"
                else "'NoneType' object has no attribute 'validate'"))
  | Some p =>
      let v :=
        if is_None v && truthy (ItemTypeProperties.default p)
        then ItemTypeProperties.default p
        else v in
      match ItemTypeProperties.validate p v with
      | Ok validation => Ok (mk v d props validation)
      | Raise e => Raise e
      end
  end.

(** [stringify()] returns the bare value. *)
Definition stringify (self : t) : Value := value self.

End ConfigItem.

(* ------------------------------------------------------------------ *)
(** ** ConfigGroupValidation *)

(** A group-level failure cause.  [add_validation] tests
    [exception not in self.fail_exceptions]; Python exceptions compare by
    object identity, carried here by [exc_id]: two causes are the same
    object exactly when they are equal records. *)
Record ExcObj : Type := mkExcObj {
  exc_id : nat;
  exc_val : PyExc
}.

Definition PyExc_eqb (a b : PyExc) : bool :=
  match a, b with
  | ConfigItemValidationError m, ConfigItemValidationError n
  | ConfigGroupValidationError m, ConfigGroupValidationError n
  | AttributeError m, AttributeError n
  | IndexError m, IndexError n
  | ValueError m, ValueError n
  | TypeError m, TypeError n => String.eqb m n
  | _, _ => false
  end.

Definition ExcObj_eqb (a b : ExcObj) : bool :=
  Nat.eqb (exc_id a) (exc_id b) && PyExc_eqb (exc_val a) (exc_val b).

(** Values of the dictionary returned by [ConfigGroupValidation.to_dict]:
    the ["Passed"] string, a list of failure messages, or a nested
    dictionary. *)
Inductive ErrorTree : Type :=
| EStr (s : string)
| EList (l : list string)
| EDict (d : list (string * ErrorTree)).

Module ConfigGroupValidation.

(** A group validation and the two kinds of entry of its
    [_element_validation] dictionary. *)
Inductive t : Type :=
| mk (passed : bool) (fail_reasons : list string)
     (fail_exceptions : list ExcObj)
     (_element_validation : list (string * validation))
with validation : Type :=
| Item (v : ConfigItemValidation.t)
| Group (g : t).

Definition passed (self : t) : bool :=
  match self with mk p _ _ _ => p end.
Definition fail_reasons (self : t) : list string :=
  match self with mk _ r _ _ => r end.
Definition fail_exceptions (self : t) : list ExcObj :=
  match self with mk _ _ e _ => e end.
(** The [element_validation] property. *)
Definition element_validation (self : t) : dict validation :=
  match self with mk _ _ _ ev => ev end.

(** [ConfigGroupValidation()] *)
Definition new : t := mk true [] [] [].

(** [v.passed] for either kind of validation. *)
Definition validation_passed (v : validation) : bool :=
  match v with
  | Item iv => ConfigItemValidation.passed iv
  | Group gv => passed gv
  end.

(** [add_element_validation(element_name, validation)] *)
Definition add_element_validation (element_name : string)
           (v : validation) (self : t) : t :=
  mk (passed self) (fail_reasons self) (fail_exceptions self)
     (Py.set element_name v (element_validation self)).

(** [add_validation(fail_reason, exception)] *)
Definition add_validation (fail_reason : string) (exception : ExcObj)
           (self : t) : t :=
  mk false
     (append_if_absent String.eqb fail_reason (fail_reasons self))
     (append_if_absent ExcObj_eqb exception (fail_exceptions self))
     (element_validation self).

(** The [group_passed] property:
    [all(v.passed for v in self.element_validation.values())]. *)
Definition group_passed (self : t) : bool :=
  forallb validation_passed (Py.values (element_validation self)).

(** The body of [to_dict] up to the test of [root]: the dictionary
    [d]. *)
Fixpoint to_dict_d (self : t) : dict ErrorTree :=
  match self with
  | mk p reasons _ ev =>
      let d := if p then [] else [("group", EList reasons)] in
      (fix loop (items : dict validation) (d : dict ErrorTree)
         : dict ErrorTree :=
         match items with
         | [] => d
         | (e, v) :: items' =>
             match v with
             | Group gv =>
                 if negb (group_passed gv) || negb (passed gv)
                 then loop items' (Py.set e (EDict (to_dict_d gv)) d)
                 else if negb (passed gv)
                      then loop items' (Py.set e (EList (fail_reasons gv)) d)
                      else loop items' d
             | Item iv =>
                 if negb (ConfigItemValidation.passed iv)
                 then loop items'
                        (Py.set e (EList (ConfigItemValidation.fail_reasons iv)) d)
                 else loop items' d
             end
         end) ev d
  end.

(** [to_dict(element_name, root)] *)
Definition to_dict (self : t) (element_name : string) (root : bool)
  : dict ErrorTree :=
  let d := to_dict_d self in
  if root
  then match d with
       | [] => [(element_name, EStr "Passed")]
       | _ => [(element_name, EDict d)]
       end
  else d.

End ConfigGroupValidation.

(** Whether the loop of [to_dict] writes an entry for a validation:
    the conditions of its [if] and [elif]. *)
Definition entry_reported (v : ConfigGroupValidation.validation) : bool :=
  match v with
  | ConfigGroupValidation.Item iv => negb (ConfigItemValidation.passed iv)
  | ConfigGroupValidation.Group gv =>
      negb (ConfigGroupValidation.group_passed gv)
      || negb (ConfigGroupValidation.passed gv)
  end.

(** The loop of [to_dict] as a function of the entries and of the
    dictionary [d]. *)
Fixpoint to_dict_loop (items : dict ConfigGroupValidation.validation)
         (d : dict ErrorTree) : dict ErrorTree :=
  match items with
  | [] => d
  | (e, v) :: items' =>
      to_dict_loop items'
        (if entry_reported v
         then match v with
              | ConfigGroupValidation.Group gv =>
                  Py.set e (EDict (ConfigGroupValidation.to_dict_d gv)) d
              | ConfigGroupValidation.Item iv =>
                  Py.set e (EList (ConfigItemValidation.fail_reasons iv)) d
              end
         else d)
  end.

(* ------------------------------------------------------------------ *)
(** ** ConfigGroup *)

(** The external data handed to [set_from_dict]: a scalar, or a [dict]
    ([type(v) == dict]) from names to data. *)
Inductive PyData : Type :=
| Scalar (v : Value)
| Dict (d : list (string * PyData)).

(** Induction on external data gives the property for every value of a
    [dict]. *)
Fixpoint PyData_nested_ind (P : PyData -> Prop)
         (scalar : forall v, P (Scalar v))
         (mapping : forall d, Forall (fun kv => P (snd kv)) d -> P (Dict d))
         (x : PyData) {struct x} : P x :=
  match x with
  | Scalar v => scalar v
  | Dict d =>
      mapping d
        ((fix entries (d : list (string * PyData))
            : Forall (fun kv => P (snd kv)) d :=
            match d with
            | [] => Forall_nil _
            | (k, v) :: rest =>
                Forall_cons (k, v) (PyData_nested_ind P scalar mapping v)
                            (entries rest)
            end) d)
  end.

Module ConfigGroup.

(** A group: the class name, the attributes holding config elements in
    the order of [__dict__] (what [get_config_elements()] returns), the
    [doc] attribute and the [validation] attribute, absent until
    [validate()] has run once ([hasattr(self, "validation")]). *)
Inductive t : Type :=
| mk (class_name : string) (elements : list (string * element))
     (doc : option string)
     (validation : option ConfigGroupValidation.t)
with element : Type :=
| Item (i : ConfigItem.t)
| Group (g : t).

Definition class_name (self : t) : string :=
  match self with mk c _ _ _ => c end.
(** [get_config_elements()] *)
Definition get_config_elements (self : t) : dict element :=
  match self with mk _ es _ _ => es end.
Definition doc (self : t) : option string :=
  match self with mk _ _ d _ => d end.
Definition validation (self : t) : option ConfigGroupValidation.t :=
  match self with mk _ _ _ v => v end.

(** [validate()], returning the updated group together with the
    returned [self.validation].  The inner loop is
    [validate_elements()]: each element is validated in turn (a child
    group is updated by its own [validate()]) and the result is stored
    under the element's name.  The entry stored for a child group is the
    child's own validation object.  An exception that leaves the
    [validate()] of an element leaves the loop and the method. *)
Fixpoint validate (self : t) : result (t * ConfigGroupValidation.t) :=
  match self with
  | mk cls es d v =>
      let v0 :=
        match v with
        | Some v => v
        | None => ConfigGroupValidation.new
        end in
      match
        (fix validate_elements (es : dict element)
             (v : ConfigGroupValidation.t)
           : result (dict element * ConfigGroupValidation.t) :=
           match es with
           | [] => Ok ([], v)
           | (k, e) :: rest =>
               match
                 match e with
                 | Item i =>
                     match ConfigItem.validate i with
                     | Ok iv => Ok (Item i, ConfigGroupValidation.Item iv)
                     | Raise x => Raise x
                     end
                 | Group g =>
                     match validate g with
                     | Ok (g', gv) =>
                         Ok (Group g', ConfigGroupValidation.Group gv)
                     | Raise x => Raise x
                     end
                 end
               with
               | Ok (e', ev) =>
                   match
                     validate_elements rest
                       (ConfigGroupValidation.add_element_validation k ev v)
                   with
                   | Ok (rest', v) => Ok ((k, e') :: rest', v)
                   | Raise x => Raise x
                   end
               | Raise x => Raise x
               end
           end) es v0
      with
      | Ok (es', v') => Ok (mk cls es' d (Some v'), v')
      | Raise x => Raise x
      end
  end.

(** [element.validate()] for either kind of element. *)
Definition validate_element (e : element)
  : result (element * ConfigGroupValidation.validation) :=
  match e with
  | Item i =>
      match ConfigItem.validate i with
      | Ok iv => Ok (Item i, ConfigGroupValidation.Item iv)
      | Raise x => Raise x
      end
  | Group g =>
      match validate g with
      | Ok (g', gv) => Ok (Group g', ConfigGroupValidation.Group gv)
      | Raise x => Raise x
      end
  end.

(** [validate_elements()] as a function of the element list and of the
    group's validation object. *)
Fixpoint validate_elements (es : dict element)
         (v : ConfigGroupValidation.t)
  : result (dict element * ConfigGroupValidation.t) :=
  match es with
  | [] => Ok ([], v)
  | (k, e) :: rest =>
      match validate_element e with
      | Ok (e', ev) =>
          match
            validate_elements rest
              (ConfigGroupValidation.add_element_validation k ev v)
          with
          | Ok (rest', v) => Ok ((k, e') :: rest', v)
          | Raise x => Raise x
          end
      | Raise x => Raise x
      end
  end.

(** [ConfigGroup.__init__(doc)], run by a subclass constructor after it
    has set its element attributes. *)
Definition init (cls : string) (es : dict element) (d : option string)
  : result t :=
  match validate (mk cls es d None) with
  | Ok (self, _) => Ok self
  | Raise x => Raise x
  end.

(** The [for] loop of [set_from_dict], given the treatment [set_elem]
    of one element by one value. *)
Definition set_from_dict_loop (set_elem : PyData -> element -> element)
  : dict PyData -> t -> t :=
  fix loop (config_dict : dict PyData) (self : t) : t :=
    match config_dict with
    | [] => self
    | (element_name, v) :: rest =>
        loop rest
          match Py.get element_name (get_config_elements self) with
          | Some el =>
              mk (class_name self)
                 (Py.set element_name (set_elem v el)
                    (get_config_elements self))
                 (doc self) (validation self)
          | None => self
          end
    end.

(** One iteration of the loop on a found element: a [dict] for a group
    recurses with [root=False], a non-[dict] for an item calls
    [set_value], anything else is skipped. *)
Fixpoint set_element (v : PyData) (el : element) : element :=
  match v, el with
  | Dict d, Group g => Group (set_from_dict_loop set_element d g)
  | Scalar x, Item i => Item (ConfigItem.set_value x i)
  | _, _ => el
  end.

(** The [for] loop of [set_from_dict] with the treatment of its body:
    the whole of [set_from_dict(config_dict, False)]. *)
Definition set_values (config_dict : dict PyData) (self : t) : t :=
  set_from_dict_loop set_element config_dict self.

(** [set_from_dict(config_dict, root)]: the loop, then [validate()]
    for a root. *)
Definition set_from_dict (config_dict : dict PyData) (root : bool)
           (self : t) : result t :=
  let self := set_values config_dict self in
  if root
  then match validate self with
       | Ok (self, _) => Ok self
       | Raise x => Raise x
       end
  else Ok self.

(** The values held by the tree: each item name with the item's value,
    each group name with the values of that group. *)
Fixpoint item_values (self : t) : dict PyData :=
  match self with
  | mk _ es _ _ =>
      (fix values_of (es : dict element) : dict PyData :=
         match es with
         | [] => []
         | (k, Item i) :: rest => (k, Scalar (ConfigItem.value i)) :: values_of rest
         | (k, Group g) :: rest => (k, Dict (item_values g)) :: values_of rest
         end) es
  end.

(** The value or values held by one element. *)
Definition element_values (e : element) : PyData :=
  match e with
  | Item i => Scalar (ConfigItem.value i)
  | Group g => Dict (item_values g)
  end.

(** The group with the value of every item blanked: what is left is
    everything [set_from_dict] without validation cannot change. *)
Fixpoint skeleton (self : t) : t :=
  match self with
  | mk cls es d v =>
      mk cls
         ((fix blank (es : dict element) : dict element :=
             match es with
             | [] => []
             | (k, Item i) :: rest =>
                 (k, Item (ConfigItem.set_value VNone i)) :: blank rest
             | (k, Group g) :: rest => (k, Group (skeleton g)) :: blank rest
             end) es)
         d v
  end.

Definition skeleton_element (e : element) : element :=
  match e with
  | Item i => Item (ConfigItem.set_value VNone i)
  | Group g => Group (skeleton g)
  end.

(** Element names are attribute names, hence distinct within each group
    of the tree. *)
Fixpoint well_named (self : t) : Prop :=
  match self with
  | mk _ es _ _ =>
      NoDup (Py.keys es)
      /\ (fix children (es : dict element) : Prop :=
            match es with
            | [] => True
            | (_, Item _) :: rest => children rest
            | (_, Group g) :: rest => well_named g /\ children rest
            end) es
  end.

Definition well_named_element (e : element) : Prop :=
  match e with
  | Item _ => True
  | Group g => well_named g
  end.

(** Induction on a group gives the property for every child group. *)
Fixpoint group_ind (P : t -> Prop)
         (step : forall cls es d v,
             Forall (fun ke => match snd ke with
                               | Item _ => True
                               | Group g => P g
                               end) es ->
             P (mk cls es d v))
         (g : t) {struct g} : P g :=
  match g with
  | mk cls es d v =>
      step cls es d v
        ((fix children (es : dict element)
            : Forall (fun ke => match snd ke with
                                | Item _ => True
                                | Group g => P g
                                end) es :=
            match es with
            | [] => Forall_nil _
            | (k, e) :: rest =>
                Forall_cons (k, e)
                  (match e as e0
                         return match e0 with
                                | Item _ => True
                                | Group g => P g
                                end
                   with
                   | Item _ => I
                   | Group g' => group_ind P step g'
                   end)
                  (children rest)
            end) es)
  end.

End ConfigGroup.


(* ------------------------------------------------------------------ *)
(** ** GameMode *)

Module GameMode.

(** Modelled from the spec: [ConfigGroup.to_dict(values_only=True)], which
    [GameMode.to_dict] calls through [super()], belongs to
    [yawning_titan.config.core] and is not among the sources.  Spec 4.3:
    a companion [values_only] mode strips [doc]/constraints wrappers,
    emitting bare scalars and nested mappings suitable for round-tripping
    back through [set_from_dict].  [include_none] keeps its default
    [True], so [None] values are emitted too. *)
Definition to_dict_values_only (self : ConfigGroup.t) : dict PyData :=
  ConfigGroup.item_values self.

(** Modelled from the spec: the content that equality reads.  Spec 4.2 and
    4.3: an item is compared by its value, a group structurally over all
    its children plus its non-child attributes.  [ConfigBase.__hash__]
    builds this content ([stringify()] of every element, which is the
    bare value of an item and for a group a rendering of its class name,
    elements and other attributes, represented here by what it renders;
    then the attributes that are no elements, here [doc] and
    [validation]) and [__eq__] compares the hashes of two such contents
    for objects of one class; the hash function itself is not
    modelled. *)
Inductive Content : Type :=
| CItem (v : Value)
| CGroup (cls : string) (children : list (string * Content))
         (doc : option string)
         (validation : option ConfigGroupValidation.t).

(** Modelled from the spec: the content of a group, read as
    [ConfigBase.__hash__] reads it: the elements in the order of
    [__dict__], then [doc] and [validation]. *)
Fixpoint content (self : ConfigGroup.t) : Content :=
  match self with
  | ConfigGroup.mk cls es d v =>
      CGroup cls
        ((fix children (es : dict ConfigGroup.element)
            : list (string * Content) :=
            match es with
            | [] => []
            | (k, ConfigGroup.Item i) :: rest =>
                (k, CItem (ConfigItem.stringify i)) :: children rest
            | (k, ConfigGroup.Group g) :: rest =>
                (k, content g) :: children rest
            end) es)
        d v
  end.

Section Create.

(** [GameMode()]: the root as its constructor leaves it, with the default
    elements of the component classes, which are not among the sources.
    The [_doc_metadata] attribute, made anew by every [GameMode()] call
    and not written by [to_dict(values_only=True)], is left out of the
    model. *)
Variable game_mode : ConfigGroup.t.

(** Modelled from the spec: the legacy layout of 4.4, a fingerprint of
    legacy keys and a fixed renaming table, neither of which the spec
    spells out. *)
Variable legacy_fingerprint : dict PyData -> bool.
Variable legacy_table : dict PyData -> dict PyData.

(** Modelled from the spec: [set_from_dict(dict, legacy, infer_legacy)].
    Spec 4.4: when [infer_legacy] is true and [legacy] is unset the key
    set decides the layout; a legacy mapping goes through the renaming
    table before the ordinary [set_from_dict]. *)
Definition set_from_dict (data : dict PyData) (legacy infer_legacy : bool)
           (self : ConfigGroup.t) : result ConfigGroup.t :=
  let legacy := legacy || (infer_legacy && legacy_fingerprint data) in
  ConfigGroup.set_from_dict
    (if legacy then legacy_table data else data) true self.

(** [GameMode.create(dict, legacy, infer_legacy, raise_errors)].
    [validation.log()] prints and returns [None], which becomes the
    argument of the [ValueError]. *)
Definition create (data : dict PyData) (legacy infer_legacy : bool)
           (raise_errors : bool) : result ConfigGroup.t :=
  match set_from_dict data legacy infer_legacy game_mode with
  | Ok game_mode =>
      if raise_errors
      then match ConfigGroup.validation game_mode with
           | Some v =>
               if negb (ConfigGroupValidation.passed v)
               then Raise (ValueError "None")
               else Ok game_mode
           | None =>
               Raise (AttributeError
                        "'GameMode' object has no attribute 'validation'")
           end
      else Ok game_mode
  | Raise x => Raise x
  end.

End Create.

End GameMode.

(* ------------------------------------------------------------------ *)
(** ** The conditions tested by [ItemTypeProperties.validate] *)

(** The condition of the first [if]: [not self.allow_null and val is None]. *)
Definition null_check_fails (p : ItemTypeProperties.t) (val : Value) : bool :=
  negb (truthy_opt (ItemTypeProperties.allow_null p)) && is_None val.

(** The condition of the second [if]:
    [not any(isinstance(val, _type) for _type in [int, float])]. *)
Definition type_check_fails (val : Value) : bool :=
  negb (existsb (isinstance val) [TInt; TFloat]).

(** What the documentation of [validate] announces: the type of the value
    is in [allowed_types], an [int] being accepted where [float] is
    allowed. *)
Definition type_allowed (p : ItemTypeProperties.t) (val : Value) : bool :=
  match ItemTypeProperties.allowed_types p with
  | Some allowed =>
      existsb (PyType_eqb (type_of val)) allowed
      || (PyType_eqb (type_of val) TInt
          && existsb (PyType_eqb TFloat) allowed)
  | None => false
  end.

(* ------------------------------------------------------------------ *)
(** ** Sample objects *)

Module Samples.

(** Properties of an integer item: [allowed_types=[int]],
    [allow_null=False], no default. *)
Definition int_props : ItemTypeProperties.t :=
  ItemTypeProperties.mk (Some [TInt]) (Some false) VNone.

(** Properties of a string item: [allowed_types=[str]]. *)
Definition str_props : ItemTypeProperties.t :=
  ItemTypeProperties.mk (Some [TStr]) (Some false) VNone.

(** Integer properties with the empty string as default. *)
Definition empty_default_props : ItemTypeProperties.t :=
  ItemTypeProperties.mk (Some [TInt]) (Some false) (VStr "").

(** Integer properties with a string default, and with default [7]. *)
Definition bad_default_props : ItemTypeProperties.t :=
  ItemTypeProperties.mk (Some [TInt]) (Some false) (VStr "seven").
Definition seven_props : ItemTypeProperties.t :=
  ItemTypeProperties.mk (Some [TInt]) (Some false) (VInt 7).

(** Properties with every field left at its default:
    [allowed_types=None], [allow_null=None], [default=None]. *)
Definition default_props : ItemTypeProperties.t :=
  ItemTypeProperties.mk None None VNone.

(** [allowed_types] left at [None], null allowed, a string default. *)
Definition unlisted_props : ItemTypeProperties.t :=
  ItemTypeProperties.mk None (Some true) (VStr "seven").

(** The failed result of validating ["abc"] against [int_props]. *)
Definition abc_failure : ConfigItemValidation.t :=
  ConfigItemValidation.mk
    false
    ["Value abc is of type <class 'str'>, should be <class 'int'>."]
    [ConfigItemValidationError
       "Value abc is of type <class 'str'>, should be <class 'int'>."].

(** [ConfigItem(value=5, properties=int_props)], as the constructor
    returns it. *)
Definition item5 : ConfigItem.t :=
  ConfigItem.mk (VInt 5) None (Some int_props) ConfigItemValidation.new.

(** [ConfigItem(value="abc", properties=int_props)] *)
Definition item_abc : ConfigItem.t :=
  ConfigItem.mk (VStr "abc") None (Some int_props) abc_failure.

(** [ConfigItem(value=5)] whose properties leave [allowed_types] at
    [None]. *)
Definition item5_unlisted : ConfigItem.t :=
  ConfigItem.mk (VInt 5) None (Some default_props) ConfigItemValidation.new.

(** A group holding the failing item under the name [x], as its
    constructor returns it, and its validation object. *)
Definition leaf_validation : ConfigGroupValidation.t :=
  ConfigGroupValidation.mk
    true [] [] [("x", ConfigGroupValidation.Item abc_failure)].
Definition leaf_group : ConfigGroup.t :=
  ConfigGroup.mk "Leaf" [("x", ConfigGroup.Item item_abc)] None
                 (Some leaf_validation).

(** A group holding a passing item and [leaf_group]. *)
Definition mid_validation : ConfigGroupValidation.t :=
  ConfigGroupValidation.mk
    true [] []
    [("n", ConfigGroupValidation.Item ConfigItemValidation.new);
     ("leaf", ConfigGroupValidation.Group leaf_validation)].
Definition mid_group : ConfigGroup.t :=
  ConfigGroup.mk
    "Mid"
    [("n", ConfigGroup.Item item5); ("leaf", ConfigGroup.Group leaf_group)]
    None (Some mid_validation).

(** A root holding [mid_group]: the failing item sits three levels
    down. *)
Definition top_validation : ConfigGroupValidation.t :=
  ConfigGroupValidation.mk
    true [] [] [("mid", ConfigGroupValidation.Group mid_validation)].
Definition top_group : ConfigGroup.t :=
  ConfigGroup.mk "Top" [("mid", ConfigGroup.Group mid_group)] None
                 (Some top_validation).

(** A group holding an item whose properties leave [allowed_types] at
    [None]. *)
Definition unlisted_validation : ConfigGroupValidation.t :=
  ConfigGroupValidation.mk
    true [] [] [("u", ConfigGroupValidation.Item ConfigItemValidation.new)].
Definition unlisted_group : ConfigGroup.t :=
  ConfigGroup.mk "Unlisted" [("u", ConfigGroup.Item item5_unlisted)] None
                 (Some unlisted_validation).

(** External data naming the item [x] and an unknown key. *)
Definition leaf_data : dict PyData :=
  [("x", Scalar (VInt 9)); ("unknown", Scalar (VInt 1))].

(** A root whose items all pass: an item [n] and a group [sub] holding an
    item [m], as the constructor leaves it when called without
    arguments. *)
Definition sub_validation : ConfigGroupValidation.t :=
  ConfigGroupValidation.mk
    true [] [] [("m", ConfigGroupValidation.Item ConfigItemValidation.new)].
Definition sub_group : ConfigGroup.t :=
  ConfigGroup.mk "Sub" [("m", ConfigGroup.Item item5)] None
                 (Some sub_validation).
Definition root_validation : ConfigGroupValidation.t :=
  ConfigGroupValidation.mk
    true [] []
    [("n", ConfigGroupValidation.Item ConfigItemValidation.new);
     ("sub", ConfigGroupValidation.Group sub_validation)].
Definition fresh_root : ConfigGroup.t :=
  ConfigGroup.mk
    "GameMode"
    [("n", ConfigGroup.Item item5); ("sub", ConfigGroup.Group sub_group)]
    None (Some root_validation).

(** The same root constructed with [doc="custom"]. *)
Definition documented_root : ConfigGroup.t :=
  ConfigGroup.mk
    "GameMode"
    [("n", ConfigGroup.Item item5); ("sub", ConfigGroup.Group sub_group)]
    (Some "custom") (Some root_validation).

(** No mapping is taken for a legacy one; the renaming table is unused. *)
Definition no_legacy (data : dict PyData) : bool := false.
Definition no_table (data : dict PyData) : dict PyData := data.

(** External data for [fresh_root]. *)
Definition root_data : dict PyData :=
  [("n", Scalar (VInt 3));
   ("sub", Dict [("m", Scalar (VInt 4)); ("unknown", Scalar (VInt 1))])].

(** The validation object of a group after construction. *)
Definition validation_of (g : ConfigGroup.t) : ConfigGroupValidation.t :=
  match ConfigGroup.validation g with
  | Some v => v
  | None => ConfigGroupValidation.new
  end.

End Samples.

(* ------------------------------------------------------------------ *)
(** ** Sequences of calls *)

(** A sequence of [add_validation] calls on one group validation. *)
Definition add_validations (calls : list (string * ExcObj))
           (v : ConfigGroupValidation.t) : ConfigGroupValidation.t :=
  fold_left (fun v c => ConfigGroupValidation.add_validation (fst c) (snd c) v)
            calls v.

(** The elements of [l] in the order of their first occurrence, each
    once. *)
Definition first_occurrences {A} (dec : forall a b : A, {a = b} + {a <> b})
           (l : list A) : list A :=
  rev (nodup dec (rev l)).

From Stdlib Require Import DecimalString DecimalNat Uint63.

(* ------------------------------------------------------------------ *)
(** ** Further methods of the configuration classes *)

(** The classes [get_config_elements(_type)] is called with. *)
Inductive ElementClass : Type := ClsConfigItem | ClsConfigGroup.

Module ConfigBase.

(** [isinstance(v, _type)] for a config element. *)
Definition isinstance_element (e : ConfigGroup.element) (c : ElementClass)
  : bool :=
  match e, c with
  | ConfigGroup.Item _, ClsConfigItem => true
  | ConfigGroup.Group _, ClsConfigGroup => true
  | _, _ => false
  end.

(** [get_config_elements(_type)]: with a class, the elements that are
    instances of it; without, every element. *)
Definition get_config_elements (_type : option ElementClass)
           (self : ConfigGroup.t) : dict ConfigGroup.element :=
  match _type with
  | Some c =>
      filter (fun kv => isinstance_element (snd kv) c)
             (ConfigGroup.get_config_elements self)
  | None =>
      filter (fun kv => isinstance_element (snd kv) ClsConfigItem
                        || isinstance_element (snd kv) ClsConfigGroup)
             (ConfigGroup.get_config_elements self)
  end.

End ConfigBase.

(** [ConfigGroupValidation(passed, fail_reason, fail_exception)]: the
    constructor with its arguments. *)
Definition ConfigGroupValidation_init (passed : bool)
           (fail_reason : option string) (fail_exception : option ExcObj)
  : ConfigGroupValidation.t :=
  ConfigGroupValidation.mk
    passed
    (match fail_reason with Some r => [r] | None => [] end)
    (match fail_exception with Some e => [e] | None => [] end)
    [].

Section ToDict.

(** [ItemTypeProperties.to_dict] is abstract: the item type classes that
    implement it are not among the sources.  What to_dict of an item and
    of a group do with its result is independent of the entries. *)
Variable properties_to_dict : ItemTypeProperties.t -> dict PyData.

(** [ConfigItem.to_dict(as_key_val_pair)]; the class name is that of
    [ConfigItem] itself. *)
Definition ConfigItem_to_dict (self : ConfigItem.t) (as_key_val_pair : bool)
  : dict PyData :=
  let d := [("value", Scalar (ConfigItem.value self))] in
  let d :=
    match ConfigItem.doc self with
    | Some s => if truthy (VStr s) then Py.set "doc" (Scalar (VStr s)) d else d
    | None => d
    end in
  let d :=
    match ConfigItem.properties self with
    | Some p => Py.set "properties" (Dict (properties_to_dict p)) d
    | None => d
    end in
  if as_key_val_pair then [("ConfigItem", Dict d)] else d.

(** [{**a, **b}] *)
Definition dict_merge {V} (a b : dict V) : dict V :=
  fold_left (fun acc kv => Py.set (fst kv) (snd kv) acc) b a.

(** [ConfigGroup.to_dict()]: the [doc] when it is not [None], merged
    with the [to_dict()] of every element under the element's name. *)
Fixpoint ConfigGroup_to_dict (self : ConfigGroup.t) : dict PyData :=
  match self with
  | ConfigGroup.mk _ es d _ =>
      let attr_dict :=
        match d with
        | Some s => [("doc", Scalar (VStr s))]
        | None => []
        end in
      let element_dict :=
        (fix comprehension (es : dict ConfigGroup.element)
             (acc : dict PyData) : dict PyData :=
           match es with
           | [] => acc
           | (k, ConfigGroup.Item i) :: rest =>
               comprehension rest
                 (Py.set k (Dict (ConfigItem_to_dict i false)) acc)
           | (k, ConfigGroup.Group g) :: rest =>
               comprehension rest (Py.set k (Dict (ConfigGroup_to_dict g)) acc)
           end) es [] in
      dict_merge attr_dict element_dict
  end.

(** [e.to_dict()] for either kind of element. *)
Definition element_to_dict (e : ConfigGroup.element) : dict PyData :=
  match e with
  | ConfigGroup.Item i => ConfigItem_to_dict i false
  | ConfigGroup.Group g => ConfigGroup_to_dict g
  end.

End ToDict.

(** No element of the tree goes by the given name.  [ConfigGroup.__init__]
    assigns [self.doc] and [self.validation] after the subclass has set
    its elements, so no element of a constructed group is named [doc]
    or [validation]. *)
Fixpoint no_element_named (name : string) (self : ConfigGroup.t) : Prop :=
  match self with
  | ConfigGroup.mk _ es _ _ =>
      Py.get name es = None
      /\ (fix children (es : dict ConfigGroup.element) : Prop :=
            match es with
            | [] => True
            | (_, ConfigGroup.Item _) :: rest => children rest
            | (_, ConfigGroup.Group g) :: rest =>
                no_element_named name g /\ children rest
            end) es
  end.

(** The entry that the loop of [to_dict] writes for a reported
    validation. *)
Definition rendered_entry (kv : string * ConfigGroupValidation.validation)
  : string * ErrorTree :=
  match snd kv with
  | ConfigGroupValidation.Group gv =>
      (fst kv, EDict (ConfigGroupValidation.to_dict_d gv))
  | ConfigGroupValidation.Item iv =>
      (fst kv, EList (ConfigItemValidation.fail_reasons iv))
  end.

(* ------------------------------------------------------------------ *)
(** ** Random draws *)

(** The state of the [random] module is modelled by the values that its
    coming [randint] calls return.  A computation either returns a
    value and what is left of the draws, raises, or finds that the draws
    at hand are not those of a run: they are used up, or the next one
    lies outside the range asked for. *)
Inductive run (A : Type) : Type :=
| Returns (a : A) (rest : list Z)
| Raises (e : PyExc)
| NoRun.
Arguments Returns {A} a rest.
Arguments Raises {A} e.
Arguments NoRun {A}.

(** [random.randint(a, b)]: an integer between [a] and [b], both
    included; an empty range raises [ValueError]. *)
Definition randint (a b : Z) (draws : list Z) : run Z :=
  if (b <? a)%Z
  then Raises (ValueError "empty range for randrange()")
  else match draws with
       | r :: rest =>
           if ((a <=? r) && (r <=? b))%Z then Returns r rest else NoRun
       | [] => NoRun
       end.

(** [str(i)] for a non-negative integer. *)
Definition str_nat (i : nat) : string :=
  NilEmpty.string_of_uint (Nat.to_uint i).

(* ------------------------------------------------------------------ *)
(** ** network_creator *)

Module NetworkCreator.

(** A position: the two integers that [randint] returned for it. *)
Definition Pos : Type := (Z * Z)%type.

(** [check_if_nearby(pos, full_list, value)]: the loop over
    [full_list.values()] with its early [return True]. *)
Fixpoint check_if_nearby_loop (pos : Pos) (values : list Pos) (value : Z)
  : bool :=
  match values with
  | [] => false
  | i :: rest =>
      if ((fst i - value <=? fst pos) && (fst pos <=? fst i + value))%Z
      then if ((snd i - value <=? snd pos) && (snd pos <=? snd i + value))%Z
           then true
           else check_if_nearby_loop pos rest value
      else check_if_nearby_loop pos rest value
  end.

Definition check_if_nearby (pos : Pos) (full_list : dict Pos) (value : Z)
  : bool :=
  check_if_nearby_loop pos (Py.values full_list) value.

(** The [while] loop of [generate_node_positions] for one node: as long
    as the position is near one already taken, draw another; every tenth
    failure narrows the distance by one, down to zero.  [size] is
    [len(adj_matrix)]. *)
Fixpoint retry_position (draws : list Z) (size : Z) (positions : dict Pos)
         (rand_pos : Pos) (fails : nat) (value : Z) {struct draws}
  : run Pos :=
  if check_if_nearby rand_pos positions value
  then match draws with
       | x :: y :: rest =>
           if ((0 <=? x) && (x <=? size * 4) && (0 <=? y) && (y <=? size * 4))%Z
           then
             let fails := S fails in
             let value :=
               if Nat.eqb (fails mod 10) 0
               then let value := (value - 1)%Z in
                    if (value =? -1)%Z then 0%Z else value
               else value in
             retry_position rest size positions (x, y) fails value
           else NoRun
       | _ => NoRun
       end
  else Returns rand_pos draws.

(** The [for] loop of [generate_node_positions] from node [i] on, with
    [count] nodes to go. *)
Fixpoint node_positions_from (count i : nat) (size : Z)
         (positions : dict Pos) (draws : list Z) : run (dict Pos) :=
  match count with
  | O => Returns positions draws
  | S count' =>
      match randint 0 (size * 4) draws with
      | Returns x draws =>
          match randint 0 (size * 4) draws with
          | Returns y draws =>
              match retry_position draws size positions (x, y) 0 5 with
              | Returns rand_pos draws =>
                  node_positions_from
                    count' (S i) size
                    (Py.set (str_nat i) rand_pos positions) draws
              | Raises e => Raises e
              | NoRun => NoRun
              end
          | Raises e => Raises e
          | NoRun => NoRun
          end
      | Raises e => Raises e
      | NoRun => NoRun
      end
  end.

(** [generate_node_positions(adj_matrix)], which reads of the matrix
    its number of rows only. *)
Definition generate_node_positions (rows : nat) (draws : list Z)
  : run (dict Pos) :=
  node_positions_from rows 0 (Z.of_nat rows) [] draws.

(** A square [numpy] array: its number of rows and its cells.  The cells
    hold the floats [0.0] and [1.0], written [0] and [1]. *)
Record Matrix : Type := mkMatrix {
  rows : nat;
  cell : nat -> nat -> Z
}.

(** [np.zeros((n, n))] *)
Definition zeros (n : nat) : Matrix := mkMatrix n (fun _ _ => 0%Z).

(** An index into an axis of [n] entries: a negative index counts from
    the end, an index outside [-n, n) is an [IndexError]. *)
Definition axis_index (n : nat) (i : Z) : option nat :=
  if ((0 <=? i) && (i <? Z.of_nat n))%Z then Some (Z.to_nat i)
  else if ((- Z.of_nat n <=? i) && (i <? 0))%Z
       then Some (Z.to_nat (Z.of_nat n + i))
       else None.

(** The message of the [IndexError] of [numpy]. *)
Definition out_of_bounds (i : Z) (n : nat) : PyExc :=
  IndexError ("index " ++ NilEmpty.string_of_int (Z.to_int i)
              ++ " is out of bounds for axis 0 with size " ++ str_nat n).

(** [adj_matrix[i][j] = v]: the row [adj_matrix[i]] is taken first, then
    its entry [j] is assigned. *)
Definition set_cell (i j : Z) (v : Z) (m : Matrix) : result Matrix :=
  match axis_index (rows m) i with
  | Some a =>
      match axis_index (rows m) j with
      | Some b =>
          Ok (mkMatrix (rows m)
                       (fun x y => if Nat.eqb x a && Nat.eqb y b
                                   then v else cell m x y))
      | None => Raise (out_of_bounds j (rows m))
      end
  | None => Raise (out_of_bounds i (rows m))
  end.

(** The two assignments [adj_matrix[i][j] = 1] and
    [adj_matrix[j][i] = 1]. *)
Definition link (i j : Z) (m : Matrix) : result Matrix :=
  match set_cell i j 1 m with
  | Ok m => set_cell j i 1 m
  | Raise e => Raise e
  end.

(** The float that an integer draw is compared as. *)
Definition float_of_draw (r : Z) : float :=
  PrimFloat.of_uint63 (Uint63.of_Z r).

(** [r < probability * 100] and [r > probability * 100]. *)
Definition draw_below (r : Z) (probability : float) : bool :=
  PrimFloat.ltb (float_of_draw r) (PrimFloat.mul probability 100%float).
Definition draw_above (r : Z) (probability : float) : bool :=
  PrimFloat.ltb (PrimFloat.mul probability 100%float) (float_of_draw r).

(** The inner loop of the mesh, [for j in range(i + 1, size)], with
    [count] values of [j] to go. *)
Fixpoint mesh_row (count : nat) (i j : nat) (connectivity : float)
         (adj : Matrix) (draws : list Z) : run Matrix :=
  match count with
  | O => Returns adj draws
  | S count' =>
      match randint 0 99 draws with
      | Returns r draws =>
          if draw_below r connectivity
          then match link (Z.of_nat i) (Z.of_nat j) adj with
               | Ok adj => mesh_row count' i (S j) connectivity adj draws
               | Raise e => Raises e
               end
          else mesh_row count' i (S j) connectivity adj draws
      | Raises e => Raises e
      | NoRun => NoRun
      end
  end.

(** The outer loop of the mesh, [for i in range(0, size)]. *)
Fixpoint mesh_rows (count : nat) (i size : nat) (connectivity : float)
         (adj : Matrix) (draws : list Z) : run Matrix :=
  match count with
  | O => Returns adj draws
  | S count' =>
      match mesh_row (size - (i + 1)) i (i + 1) connectivity adj draws with
      | Returns adj draws => mesh_rows count' (S i) size connectivity adj draws
      | Raises e => Raises e
      | NoRun => NoRun
      end
  end.

(** [get_mesh_matrix_and_positions(size, connectivity)], for a size that
    [np.zeros] accepts, that is a non-negative one. *)
Definition get_mesh_matrix_and_positions (size : nat) (connectivity : float)
           (draws : list Z) : run (Matrix * dict Pos) :=
  match mesh_rows size 0 size connectivity (zeros size) draws with
  | Returns adj draws =>
      match generate_node_positions (rows adj) draws with
      | Returns positions draws => Returns (adj, positions) draws
      | Raises e => Raises e
      | NoRun => NoRun
      end
  | Raises e => Raises e
  | NoRun => NoRun
  end.

(** The loop of the ring, [for i in range(0, ring_size - 1)]. *)
Fixpoint ring_links (count : nat) (i : nat) (break_probability : float)
         (adj : Matrix) (draws : list Z) : run Matrix :=
  match count with
  | O => Returns adj draws
  | S count' =>
      match randint 1 99 draws with
      | Returns r draws =>
          if draw_above r break_probability
          then match link (Z.of_nat i) (Z.of_nat i + 1) adj with
               | Ok adj => ring_links count' (S i) break_probability adj draws
               | Raise e => Raises e
               end
          else ring_links count' (S i) break_probability adj draws
      | Raises e => Raises e
      | NoRun => NoRun
      end
  end.

(** [get_ring_matrix_and_positions(break_probability, ring_size)], for a
    non-negative size. *)
Definition get_ring_matrix_and_positions (break_probability : float)
           (ring_size : nat) (draws : list Z) : run (Matrix * dict Pos) :=
  match ring_links (ring_size - 1) 0 break_probability (zeros ring_size) draws
  with
  | Returns adj draws =>
      match randint 1 99 draws with
      | Returns r draws =>
          match (if draw_above r break_probability
                 then link (Z.of_nat ring_size - 1) 0 adj
                 else Ok adj) with
          | Ok adj =>
              match generate_node_positions (rows adj) draws with
              | Returns positions draws => Returns (adj, positions) draws
              | Raises e => Raises e
              | NoRun => NoRun
              end
          | Raise e => Raises e
          end
      | Raises e => Raises e
      | NoRun => NoRun
      end
  | Raises e => Raises e
  | NoRun => NoRun
  end.

(** The loop [for j in range(0, group_size)] of group [i] of the star,
    with [count] values of [j] to go.  Its inner loop,
    [for k in range(j + 1, group_size)], draws as a row of the mesh does
    and links node [j + 1 + i * group_size] to node
    [k + 1 + i * group_size]. *)
Fixpoint star_group (count j i group_size : nat) (group_connectivity : float)
         (adj : Matrix) (draws : list Z) : run Matrix :=
  match count with
  | O => Returns adj draws
  | S count' =>
      match mesh_row (group_size - (j + 1))
                     (j + 1 + i * group_size) (j + 1 + 1 + i * group_size)
                     group_connectivity adj draws with
      | Returns adj draws =>
          star_group count' (S j) i group_size group_connectivity adj draws
      | Raises e => Raises e
      | NoRun => NoRun
      end
  end.

(** The first loop of the star, [for i in range(first_layer_size)]. *)
Fixpoint star_groups (count i group_size : nat) (group_connectivity : float)
         (adj : Matrix) (draws : list Z) : run Matrix :=
  match count with
  | O => Returns adj draws
  | S count' =>
      match star_group group_size 0 i group_size group_connectivity adj draws
      with
      | Returns adj draws =>
          star_groups count' (S i) group_size group_connectivity adj draws
      | Raises e => Raises e
      | NoRun => NoRun
      end
  end.

(** The second loop of the star, which links one node of each group to
    the centre, node [0]. *)
Fixpoint star_connectors (count i group_size : nat) (adj : Matrix)
         (draws : list Z) : run Matrix :=
  match count with
  | O => Returns adj draws
  | S count' =>
      match randint 0 (Z.of_nat group_size - 1) draws with
      | Returns connector draws =>
          match link 0 (1 + Z.of_nat i * Z.of_nat group_size + connector) adj
          with
          | Ok adj => star_connectors count' (S i) group_size adj draws
          | Raise e => Raises e
          end
      | Raises e => Raises e
      | NoRun => NoRun
      end
  end.

(** [get_star_matrix_and_positions(first_layer_size, group_size,
    group_connectivity)], for non-negative sizes. *)
Definition get_star_matrix_and_positions
           (first_layer_size group_size : nat) (group_connectivity : float)
           (draws : list Z) : run (Matrix * dict Pos) :=
  let number_of_nodes := (1 + first_layer_size * group_size)%nat in
  match star_groups first_layer_size 0 group_size group_connectivity
                    (zeros number_of_nodes) draws with
  | Returns adj draws =>
      match star_connectors first_layer_size 0 group_size adj draws with
      | Returns adj draws =>
          match generate_node_positions (rows adj) draws with
          | Returns positions draws => Returns (adj, positions) draws
          | Raises e => Raises e
          | NoRun => NoRun
          end
      | Raises e => Raises e
      | NoRun => NoRun
      end
  | Raises e => Raises e
  | NoRun => NoRun
  end.

(** Node [a] belongs to group [g] of a star with groups of
    [group_size] nodes. *)
Definition in_group (group_size g a : nat) : Prop :=
  (1 + g * group_size <= a < 1 + g * group_size + group_size)%nat.

(** Every link of the matrix joins two nodes of one group. *)
Definition within_groups (first_layer_size group_size : nat) (m : Matrix)
  : Prop :=
  forall a b,
    cell m a b = 1%Z ->
    exists g, (g < first_layer_size)%nat
              /\ in_group group_size g a /\ in_group group_size g b.

(** A matrix of a graph without loops: symmetric, zero on the diagonal,
    zero or one elsewhere, and zero outside its rows. *)
Definition simple_graph (m : Matrix) : Prop :=
  forall i j,
    cell m i j = cell m j i
    /\ cell m i i = 0%Z
    /\ (cell m i j = 0%Z \/ cell m i j = 1%Z)
    /\ (cell m i j = 1%Z -> (i < rows m)%nat /\ (j < rows m)%nat).

(** A position on the grid of a network of [size] nodes. *)
Definition in_grid (size : Z) (p : Pos) : Prop :=
  (0 <= fst p <= size * 4 /\ 0 <= snd p <= size * 4)%Z.

(** The matrix after [link(a, b)]. *)
Definition linked (a b : nat) (m : Matrix) : Matrix :=
  mkMatrix (rows m)
           (fun x y => if Nat.eqb x b && Nat.eqb y a then 1%Z
                       else if Nat.eqb x a && Nat.eqb y b then 1%Z
                            else cell m x y).

(** Two nodes that follow one another on a ring of [n] nodes: one is
    the next of the other, or they are the last and the first. *)
Definition ring_neighbours (n a b : nat) : Prop :=
  b = S a \/ a = S b \/ (a = n - 1 /\ b = 0)%nat \/ (a = 0 /\ b = n - 1)%nat.

(** What holds of the matrix once the groups below [i] have their link
    to the centre. *)
Definition connected_below (n gs i : nat) (m : Matrix) : Prop :=
  simple_graph m /\ rows m = (1 + n * gs)%nat
  /\ (forall a b, (1 <= a)%nat -> (1 <= b)%nat -> cell m a b = 1%Z ->
                  exists g, (g < n)%nat /\ in_group gs g a /\ in_group gs g b)
  /\ (forall b, cell m 0 b = 1%Z -> exists g, (g < i)%nat /\ in_group gs g b)
  /\ (forall g, (g < i)%nat ->
                exists b, in_group gs g b /\ cell m 0 b = 1%Z
                          /\ forall b', in_group gs g b' ->
                                         cell m 0 b' = 1%Z -> b' = b).

End NetworkCreator.

(* ================================================================== *)
(** * Properties *)

(* ------------------------------------------------------------------ *)
(** ** Item validation *)

Section ItemValidation.

Import ItemTypeProperties.

Lemma type_check_fails_spec val :
  type_check_fails val =
  match val with
  | VNone | VStr _ => true
  | VBool _ | VInt _ | VFloat _ => false
  end.
Proof. destruct val; reflexivity. Qed.

(** A number passes both checks.  Any other value fails the type
    check: with a list of allowed types the result holds the null
    failure, if any, then the type failure; with [allowed_types] left
    at [None] the message cannot be built and [TypeError] leaves
    [validate]. *)
Lemma validate_cases p val :
  validate p val =
  if type_check_fails val
  then match allowed_types p with
       | None => Raise (TypeError "'NoneType' object is not iterable")
       | Some allowed =>
           let reasons :=
             (if null_check_fails p val then [null_msg] else [])
             ++ [type_failure allowed val] in
           Ok (ConfigItemValidation.mk
                 false reasons (map ConfigItemValidationError reasons))
       end
  else Ok ConfigItemValidation.new.
Proof.
  destruct p as [[ts|] an d]; destruct val;
    unfold validate, type_msg, null_check_fails, type_check_fails; simpl;
    try reflexivity; destruct (negb (truthy_opt an)); reflexivity.
Qed.

(** A truthy value is not [None], so only the type check can reject a
    truthy default. *)
Lemma truthy_not_None val : truthy val = true -> is_None val = false.
Proof. destruct val; simpl; congruence. Qed.

(** C2 (the code departs from the claim).  [validate] tests the value
    against the fixed list [[int, float]] and never reads
    [allowed_types]: a string is reported as a type mismatch although
    [str] is the allowed type, and [True] passes the check of an
    integer item. *)
Theorem C2_type_check_ignores_allowed_types :
  type_allowed Samples.str_props (VStr "abc") = true
  /\ validate Samples.str_props (VStr "abc") =
     Ok (ConfigItemValidation.mk false
           ["Value abc is of type <class 'str'>, should be <class 'str'>."]
           [ConfigItemValidationError
              "Value abc is of type <class 'str'>, should be <class 'str'>."])
  /\ type_allowed Samples.int_props (VBool true) = false
  /\ validate Samples.int_props (VBool true) = Ok ConfigItemValidation.new.
Proof. repeat split. Qed.

(** C5 (the code departs from the claim).  With [allowed_types] left at
    its declared default [None], [validate(None)] raises [TypeError]
    instead of returning a result: the message of the type failure is
    built from [map(str, self.allowed_types)], outside what the
    [except] clause catches.  The same holds for every value that is
    neither an [int] nor a [float].  With a list of allowed types
    [validate] returns for every value, and the result holds the message
    and the exception of every failing check, in the order of the
    checks; in particular [None] under [allow_null=False] (or an unset
    [allow_null]) carries both the null failure and the type
    failure. *)
Theorem C5_validate_raises_without_allowed_types :
  validate Samples.default_props VNone
  = Raise (TypeError "'NoneType' object is not iterable")
  /\ (forall (p : t) (val : Value),
        validate p val =
        if type_check_fails val
        then match allowed_types p with
             | None => Raise (TypeError "'NoneType' object is not iterable")
             | Some allowed =>
                 let reasons :=
                   (if null_check_fails p val then [null_msg] else [])
                   ++ [type_failure allowed val] in
                 Ok (ConfigItemValidation.mk
                       false reasons
                       (map ConfigItemValidationError reasons))
             end
        else Ok ConfigItemValidation.new)
  /\ (forall allowed d,
        validate (mk (Some allowed) (Some false) d) VNone =
        Ok (ConfigItemValidation.mk false
              [null_msg; type_failure allowed VNone]
              [ConfigItemValidationError null_msg;
               ConfigItemValidationError (type_failure allowed VNone)]))
  /\ (forall allowed d,
        validate (mk (Some allowed) None d) VNone =
        Ok (ConfigItemValidation.mk false
              [null_msg; type_failure allowed VNone]
              [ConfigItemValidationError null_msg;
               ConfigItemValidationError (type_failure allowed VNone)])).
Proof.
  split; [reflexivity|]. split; [apply validate_cases|].
  split; reflexivity.
Qed.

(** C6 as stated fails: the empty string is a present default that the
    type check rejects, yet construction succeeds, because
    [__post_init__] only validates a truthy default. *)
Lemma C6_counterexample :
  is_None (default Samples.empty_default_props) = false
  /\ (exists r,
        validate Samples.empty_default_props
                 (default Samples.empty_default_props) = Ok r
        /\ ConfigItemValidation.passed r = false)
  /\ post_init Samples.empty_default_props = Ok Samples.empty_default_props.
Proof.
  split; [reflexivity|]. split; [|reflexivity].
  eexists. split; reflexivity.
Qed.

(** C6, amended.  When the default is truthy, construction raises
    whenever [validate] does not return a passed result for the default:
    it raises the first recorded failure of the default, which is the
    type failure, when [validate] returns a failed result, and the
    [TypeError] that leaves [validate] when [allowed_types] is [None].
    A construction that succeeds returns the object unchanged, with a
    default that passes [validate]. *)
Theorem C6_truthy_default_fail_fast :
  forall p : t,
    truthy (default p) = true ->
    (forall r,
        validate p (default p) = Ok r ->
        ConfigItemValidation.passed r = false ->
        exists allowed,
          allowed_types p = Some allowed
          /\ hd_error (ConfigItemValidation.fail_exceptions r)
             = Some (ConfigItemValidationError
                       (type_failure allowed (default p)))
          /\ post_init p
             = Raise (ConfigItemValidationError
                        (type_failure allowed (default p))))
    /\ (forall e,
          validate p (default p) = Raise e ->
          allowed_types p = None
          /\ e = TypeError "'NoneType' object is not iterable"
          /\ post_init p = Raise e)
    /\ (forall p',
          post_init p = Ok p' ->
          p' = p
          /\ exists r, validate p (default p) = Ok r
                       /\ ConfigItemValidation.passed r = true).
Proof.
  intros p Ht. unfold post_init. rewrite Ht.
  rewrite (validate_cases p (default p)).
  unfold null_check_fails. rewrite (truthy_not_None _ Ht), andb_false_r.
  destruct (type_check_fails (default p)).
  - destruct (allowed_types p) as [allowed|]; cbv zeta; simpl.
    + split; [|split].
      * intros r H _. inversion H. subst r. exists allowed.
        repeat split.
      * intros e H. discriminate.
      * intros p' H. discriminate.
    + split; [|split].
      * intros r H. discriminate.
      * intros e H. inversion H. repeat split.
      * intros p' H. discriminate.
  - simpl. split; [|split].
    + intros r H Hp. inversion H. subst r. discriminate.
    + intros e H. discriminate.
    + intros p' H. inversion H. split; [reflexivity|].
      eexists. split; reflexivity.
Qed.

Lemma C6_truthy_default_fail_fast_witness :
  post_init Samples.bad_default_props =
    Raise (ConfigItemValidationError
             (type_failure [TInt] (VStr "seven")))
  /\ post_init Samples.unlisted_props
     = Raise (TypeError "'NoneType' object is not iterable")
  /\ (exists r, validate Samples.seven_props (VInt 7) = Ok r
                /\ ConfigItemValidation.passed r = true).
Proof.
  split; [|split].
  - destruct (proj1 (C6_truthy_default_fail_fast Samples.bad_default_props
                       eq_refl) _ eq_refl eq_refl)
      as (allowed & Ha & _ & Hp).
    inversion Ha. subst allowed. exact Hp.
  - apply (proj1 (proj2 (C6_truthy_default_fail_fast Samples.unlisted_props
                           eq_refl))).
    reflexivity.
  - apply (proj2 (proj2 (C6_truthy_default_fail_fast Samples.seven_props
                           eq_refl)) Samples.seven_props).
    reflexivity.
Defined.

End ItemValidation.

(* ------------------------------------------------------------------ *)
(** ** Config items *)

Section Items.

Import ConfigItem.

(** C10.  Constructing an item with value [None] validates the default
    when the default is truthy and [None] otherwise.  When that
    validation returns, the item is constructed: it stores the value
    that was validated, and its cached validation is the result.  When
    it raises (the [TypeError] of [allowed_types=None]), so does the
    construction. *)
Theorem C10_item_default_injection :
  forall (d : option string) (p : ItemTypeProperties.t),
    let v := if truthy (ItemTypeProperties.default p)
             then ItemTypeProperties.default p
             else VNone in
    init VNone d (Some p)
    = match ItemTypeProperties.validate p v with
      | Ok r => Ok (mk v d (Some p) r)
      | Raise e => Raise e
      end
    /\ (forall i,
          init VNone d (Some p) = Ok i ->
          value i = v /\ doc i = d /\ properties i = Some p
          /\ ItemTypeProperties.validate p v = Ok (validation i))
    /\ (forall e,
          init VNone d (Some p) = Raise e ->
          ItemTypeProperties.validate p v = Raise e).
Proof.
  intros d p v. subst v. unfold init. simpl.
  destruct (truthy (ItemTypeProperties.default p));
    (split; [reflexivity|]);
    match goal with
    | |- context [ItemTypeProperties.validate p ?x] =>
        destruct (ItemTypeProperties.validate p x) as [r|x0]
    end;
    (split; [intros i H | intros e H]); inversion H; subst;
    repeat split.
Qed.

Lemma C10_item_default_injection_witness :
  init VNone None (Some Samples.seven_props)
  = Ok (mk (VInt 7) None (Some Samples.seven_props) ConfigItemValidation.new)
  /\ init VNone None (Some Samples.int_props)
     = Ok (mk VNone None (Some Samples.int_props)
              (ConfigItemValidation.mk
                 false
                 [ItemTypeProperties.null_msg;
                  ItemTypeProperties.type_failure [TInt] VNone]
                 [ConfigItemValidationError ItemTypeProperties.null_msg;
                  ConfigItemValidationError
                    (ItemTypeProperties.type_failure [TInt] VNone)]))
  /\ ItemTypeProperties.validate Samples.default_props VNone
     = Raise (TypeError "'NoneType' object is not iterable").
Proof.
  split; [|split].
  - exact (proj1 (C10_item_default_injection None Samples.seven_props)).
  - exact (proj1 (C10_item_default_injection None Samples.int_props)).
  - apply (proj2 (proj2 (C10_item_default_injection
                           None Samples.default_props))).
    reflexivity.
Defined.

(** C1 as stated fails: after [set_value("abc")], and likewise after
    the assignment [item.value = "abc"], the item holds ["abc"] while
    its cached validation is still the passing result computed for
    [5]. *)
Lemma C1_counterexample :
  init (VInt 5) None (Some Samples.int_props) = Ok Samples.item5
  /\ value (set_value (VStr "abc") Samples.item5) = VStr "abc"
  /\ ItemTypeProperties.validate Samples.int_props (VStr "abc")
     <> Ok (validation (set_value (VStr "abc") Samples.item5))
  /\ (exists i',
        setattr_value (VStr "abc") Samples.item5 = Ok i'
        /\ value i' = VStr "abc"
        /\ ItemTypeProperties.validate Samples.int_props (VStr "abc")
           <> Ok (validation i')).
Proof.
  split; [reflexivity|]. split; [reflexivity|].
  split; [discriminate|].
  eexists. split; [reflexivity|]. split; [reflexivity | discriminate].
Qed.

Lemma init_fields v0 d p i :
  init v0 d (Some p) = Ok i ->
  doc i = d /\ properties i = Some p
  /\ ItemTypeProperties.validate p (value i) = Ok (validation i).
Proof.
  unfold init. intros H.
  destruct (ItemTypeProperties.validate p _) as [r|x] eqn:E;
    [|discriminate].
  inversion H. subst. simpl. repeat split. exact E.
Qed.

Lemma last_cons_any (A : Type) (l : list A) (a d d' : A) :
  last (a :: l) d = last (a :: l) d'.
Proof.
  revert a. induction l as [|b l IH]; intros a; [reflexivity|].
  change (last (b :: l) d = last (b :: l) d'). apply IH.
Qed.

(** A run of [set_value] calls changes the value only. *)
Lemma set_values_fields (writes : list Value) :
  forall i,
    let i' := fold_left (fun i w => set_value w i) writes i in
    value i' = last writes (value i)
    /\ doc i' = doc i
    /\ properties i' = properties i
    /\ validation i' = validation i.
Proof.
  induction writes as [|w writes IH]; intros i; simpl.
  - repeat split.
  - destruct (IH (set_value w i)) as (Hv & Hd & Hp & Hc).
    rewrite Hv, Hd, Hp, Hc. split; [|repeat split].
    destruct writes as [|w' writes]; [reflexivity | apply last_cons_any].
Qed.

(** C1, amended.  Whatever [set_value] calls follow the construction of
    an item with properties, the item holds the value written last and
    keeps its documentation and properties, while its cached validation
    stays the result computed at construction: [set_value] bypasses
    validation.  The result for the current value is what [validate()]
    returns, namely [properties.validate(v)]. *)
Theorem C1_set_value_bypasses_validation :
  forall (v0 : Value) (d : option string) (p : ItemTypeProperties.t)
         (i : t) (writes : list Value) (v : Value),
    init v0 d (Some p) = Ok i ->
    let i' := fold_left (fun i w => set_value w i) (writes ++ [v]) i in
    value i' = v
    /\ doc i' = d
    /\ properties i' = Some p
    /\ ItemTypeProperties.validate p (value i) = Ok (validation i')
    /\ validate i' = ItemTypeProperties.validate p v.
Proof.
  intros v0 d p i writes v Hi i'.
  destruct (@init_fields v0 d p i Hi) as (Hd & Hp & Hc).
  destruct (set_values_fields (writes ++ [v]) i) as (Hv' & Hd' & Hp' & Hc').
  fold i' in Hv', Hd', Hp', Hc'. rewrite last_last in Hv'.
  unfold validate. rewrite Hv', Hd', Hp', Hc', Hp.
  split; [reflexivity|]. split; [assumption|]. split; [reflexivity|].
  split; [assumption | reflexivity].
Qed.

Lemma C1_set_value_bypasses_validation_witness :
  let i' := set_value (VStr "abc") (set_value (VInt 6) Samples.item5) in
  value i' = VStr "abc"
  /\ ItemTypeProperties.validate Samples.int_props (VInt 5)
     = Ok (validation i')
  /\ validate i' = ItemTypeProperties.validate Samples.int_props (VStr "abc").
Proof.
  destruct (@C1_set_value_bypasses_validation
              (VInt 5) None Samples.int_props Samples.item5
              [VInt 6] (VStr "abc") eq_refl)
    as (Hv & _ & _ & Hc & Hf).
  repeat split; assumption.
Defined.

End Items.

(* ------------------------------------------------------------------ *)
(** ** Insertion-ordered dictionaries *)

Section Dicts.

Variable V : Type.
Implicit Types (d : dict V) (k : string) (v : V).

Lemma get_set_eq k v d : Py.get k (Py.set k v d) = Some v.
Proof.
  induction d as [|[k' v'] d IH]; simpl.
  - now rewrite String.eqb_refl.
  - destruct (String.eqb k k') eqn:E; simpl; rewrite E; auto.
Qed.

Lemma get_set_neq k k' v d :
  k <> k' -> Py.get k' (Py.set k v d) = Py.get k' d.
Proof.
  intros Hne. induction d as [|[k1 v1] d IH]; simpl.
  - destruct (String.eqb k' k) eqn:E; auto.
    apply String.eqb_eq in E. congruence.
  - destruct (String.eqb k k1) eqn:E; simpl.
    + apply String.eqb_eq in E. subst k1.
      destruct (String.eqb k' k) eqn:E'; auto.
      apply String.eqb_eq in E'. congruence.
    + now rewrite IH.
Qed.

Lemma get_None_keys k d : Py.get k d = None <-> ~ In k (Py.keys d).
Proof.
  induction d as [|[k' v'] d IH]; simpl.
  - tauto.
  - destruct (String.eqb k k') eqn:E.
    + apply String.eqb_eq in E. subst. split; [discriminate | tauto].
    + apply String.eqb_neq in E. rewrite IH. split.
      * intros H [H1|H1]; congruence.
      * tauto.
Qed.

Lemma keys_set_present k v d :
  Py.get k d <> None -> Py.keys (Py.set k v d) = Py.keys d.
Proof.
  induction d as [|[k' v'] d IH]; simpl; [congruence|].
  destruct (String.eqb k k') eqn:E; simpl; [reflexivity|].
  intros H. now rewrite IH.
Qed.

End Dicts.

(* ------------------------------------------------------------------ *)
(** ** Group validation results *)

Section GroupValidation.

Import ConfigGroupValidation.

Lemma PyExc_eqb_eq a b : PyExc_eqb a b = true <-> a = b.
Proof.
  destruct a, b; simpl; try (split; [discriminate | congruence]);
    rewrite String.eqb_eq; split; congruence.
Qed.

Lemma ExcObj_eqb_eq a b : ExcObj_eqb a b = true <-> a = b.
Proof.
  destruct a as [i x], b as [j y]. unfold ExcObj_eqb. simpl.
  rewrite andb_true_iff, Nat.eqb_eq, PyExc_eqb_eq.
  split; [intros [-> ->]; reflexivity | intros H; inversion H; auto].
Qed.

Lemma ExcObj_eq_dec (a b : ExcObj) : {a = b} + {a <> b}.
Proof.
  destruct (ExcObj_eqb a b) eqn:E.
  - left. now apply ExcObj_eqb_eq.
  - right. intros H. apply ExcObj_eqb_eq in H. congruence.
Defined.

End GroupValidation.

(* ------------------------------------------------------------------ *)
(** ** Appending what is absent *)

Section AppendIfAbsent.

Variable A : Type.
Variable eqb : A -> A -> bool.
Hypothesis eqb_eq : forall a b, eqb a b = true <-> a = b.
Variable dec : forall a b : A, {a = b} + {a <> b}.

Lemma existsb_eqb_In x l : existsb (eqb x) l = true <-> In x l.
Proof.
  rewrite existsb_exists. split.
  - intros [y [Hy E]]. apply eqb_eq in E. now subst.
  - intros H. exists x. split; [assumption | now apply eqb_eq].
Qed.

Lemma append_if_absent_In x l : In x (append_if_absent eqb x l).
Proof.
  unfold append_if_absent. destruct (existsb (eqb x) l) eqn:E.
  - now apply existsb_eqb_In.
  - apply in_or_app. right. now left.
Qed.

Lemma append_if_absent_NoDup x l :
  NoDup l -> NoDup (append_if_absent eqb x l).
Proof.
  intros Hnd. unfold append_if_absent.
  destruct (existsb (eqb x) l) eqn:E; [assumption|].
  assert (Hx : ~ In x l).
  { intros H. apply existsb_eqb_In in H. congruence. }
  clear E. induction l as [|a l IH]; simpl.
  - constructor; [tauto | constructor].
  - inversion Hnd as [|? ? Ha Hl]. subst. constructor.
    + rewrite in_app_iff. simpl. intros [H|[H|[]]]; [tauto|].
      subst. apply Hx. now left.
    + apply IH; [assumption|]. intros H. apply Hx. now right.
Qed.

Lemma append_if_absent_idem x l :
  append_if_absent eqb x (append_if_absent eqb x l)
  = append_if_absent eqb x l.
Proof.
  pose proof (append_if_absent_In x l) as H.
  apply existsb_eqb_In in H.
  unfold append_if_absent at 1. now rewrite H.
Qed.

(** Appending the absent ones, call after call, lists the arguments in
    the order of their first occurrence. *)
Lemma fold_append_if_absent (xs : list A) :
  fold_left (fun l x => append_if_absent eqb x l) xs []
  = first_occurrences dec xs.
Proof.
  unfold first_occurrences.
  induction xs as [|x xs IH] using rev_ind; [reflexivity|].
  rewrite fold_left_app, rev_app_distr. simpl. rewrite IH.
  unfold append_if_absent.
  destruct (in_dec dec x (rev xs)) as [Hin|Hnin].
  - assert (E : existsb (eqb x) (rev (nodup dec (rev xs))) = true).
    { apply existsb_eqb_In. rewrite <- in_rev. now apply nodup_In. }
    now rewrite E.
  - assert (E : existsb (eqb x) (rev (nodup dec (rev xs))) = false).
    { apply not_true_is_false. intros H. apply existsb_eqb_In in H.
      rewrite <- in_rev in H. now apply nodup_In in H. }
    now rewrite E.
Qed.

Lemma first_occurrences_NoDup (xs : list A) :
  NoDup (first_occurrences dec xs).
Proof. unfold first_occurrences. apply NoDup_rev, NoDup_nodup. Qed.

Lemma first_occurrences_In (xs : list A) x :
  In x (first_occurrences dec xs) <-> In x xs.
Proof.
  unfold first_occurrences. rewrite <- in_rev, nodup_In, <- in_rev.
  reflexivity.
Qed.

Lemma first_occurrences_count (xs : list A) x :
  In x xs -> count_occ dec (first_occurrences dec xs) x = 1.
Proof.
  intros Hin. apply first_occurrences_In in Hin.
  pose proof (first_occurrences_NoDup xs) as Hnd.
  rewrite (NoDup_count_occ dec) in Hnd. specialize (Hnd x).
  rewrite (count_occ_In dec) in Hin. lia.
Qed.

End AppendIfAbsent.

(* ------------------------------------------------------------------ *)
(** ** Deduplication of failures *)

Section Dedup.

Import ConfigGroupValidation.

Lemma add_validations_fields calls v :
  fail_reasons (add_validations calls v)
  = fold_left (fun l x => append_if_absent String.eqb x l)
              (map fst calls) (fail_reasons v)
  /\ fail_exceptions (add_validations calls v)
     = fold_left (fun l x => append_if_absent ExcObj_eqb x l)
                 (map snd calls) (fail_exceptions v)
  /\ element_validation (add_validations calls v) = element_validation v.
Proof.
  unfold add_validations. revert v.
  induction calls as [|[r e] calls IH]; intros v; simpl.
  - repeat split.
  - destruct (IH (add_validation r e v)) as (Hr & He & Hev).
    rewrite Hr, He, Hev. repeat split.
Qed.

(** C4 as stated fails at item level: [ConfigItemValidation.add_validation]
    appends without looking, so adding one message and cause twice
    leaves two copies. *)
Lemma C4_counterexample :
  let e := ConfigItemValidationError "bad" in
  ConfigItemValidation.add_validation "bad" e
    (ConfigItemValidation.add_validation "bad" e ConfigItemValidation.new)
  = ConfigItemValidation.mk false ["bad"; "bad"] [e; e].
Proof. reflexivity. Qed.

Lemma iter_set_value n val i :
  Nat.iter n (ConfigItem.set_value val) i
  = match n with
    | O => i
    | S _ => ConfigItem.mk val (ConfigItem.doc i) (ConfigItem.properties i)
                           (ConfigItem.validation i)
    end.
Proof.
  induction n as [|n IH]; [reflexivity|].
  simpl. rewrite IH. destruct n; reflexivity.
Qed.

(** C4, amended.  In a group-level [ConfigGroupValidation], whatever the
    sequence of [add_validation] calls, [fail_reasons] and
    [fail_exceptions] hold each added message and each added cause once,
    in the order of first insertion.  An item-level
    [ConfigItemValidation] appends every addition; repeating
    [set_value] with one value leaves the cached validation of the item
    untouched, and [validate()] afterwards returns the result of a single
    validation of that value. *)
Theorem C4_group_level_dedup :
  (forall calls : list (string * ExcObj),
      let v := add_validations calls new in
      fail_reasons v = first_occurrences string_dec (map fst calls)
      /\ fail_exceptions v = first_occurrences ExcObj_eq_dec (map snd calls)
      /\ NoDup (fail_reasons v)
      /\ NoDup (fail_exceptions v)
      /\ (forall r, In r (map fst calls) ->
                    count_occ string_dec (fail_reasons v) r = 1)
      /\ (forall e, In e (map snd calls) ->
                    count_occ ExcObj_eq_dec (fail_exceptions v) e = 1))
  /\ (forall r e v,
        add_validation r e (add_validation r e v) = add_validation r e v)
  /\ (forall r e v,
        ConfigItemValidation.fail_reasons
          (ConfigItemValidation.add_validation r e v)
        = ConfigItemValidation.fail_reasons v ++ [r]
        /\ ConfigItemValidation.fail_exceptions
             (ConfigItemValidation.add_validation r e v)
           = ConfigItemValidation.fail_exceptions v ++ [e])
  /\ (forall n val i,
        ConfigItem.validation (Nat.iter n (ConfigItem.set_value val) i)
        = ConfigItem.validation i
        /\ ConfigItem.validate (Nat.iter (S n) (ConfigItem.set_value val) i)
           = ConfigItem.validate (ConfigItem.set_value val i)).
Proof.
  split; [|split; [|split]].
  - intros calls v. subst v.
    destruct (add_validations_fields calls new) as (Hr & He & _).
    simpl in Hr, He.
    rewrite (@fold_append_if_absent _ String.eqb String.eqb_eq string_dec) in Hr.
    rewrite (@fold_append_if_absent _ ExcObj_eqb ExcObj_eqb_eq ExcObj_eq_dec) in He.
    rewrite Hr, He.
    split; [reflexivity|]. split; [reflexivity|].
    split; [apply first_occurrences_NoDup|].
    split; [apply first_occurrences_NoDup|].
    split; intros x Hx; now apply first_occurrences_count.
  - intros r e v. unfold add_validation. simpl.
    rewrite (@append_if_absent_idem _ String.eqb String.eqb_eq).
    rewrite (@append_if_absent_idem _ ExcObj_eqb ExcObj_eqb_eq). reflexivity.
  - intros r e v. split; reflexivity.
  - intros n val i. rewrite !iter_set_value. split.
    + destruct n; reflexivity.
    + reflexivity.
Qed.

Lemma C4_group_level_dedup_witness :
  let e := mkExcObj 1 (ConfigGroupValidationError "a") in
  let e' := mkExcObj 2 (ConfigGroupValidationError "b") in
  let v := add_validations [("a", e); ("b", e'); ("a", e)] new in
  fail_reasons v = ["a"; "b"]
  /\ count_occ string_dec (fail_reasons v) "a" = 1.
Proof.
  intros e e' v. subst v.
  destruct (proj1 C4_group_level_dedup [("a", e); ("b", e'); ("a", e)])
    as (Hr & _ & _ & _ & Hc & _).
  split.
  - rewrite Hr. reflexivity.
  - apply Hc. simpl. now left.
Defined.

End Dedup.

(* ------------------------------------------------------------------ *)
(** ** Group validation *)

Section GroupValidate.

Import ConfigGroup.

(** [validate()] is: take the existing validation object or a new one,
    run [validate_elements()], store and return the object. *)
Lemma validate_eq cls es d v :
  validate (mk cls es d v) =
  match
    validate_elements es
      (match v with Some v => v | None => ConfigGroupValidation.new end)
  with
  | Ok (es', v') => Ok (mk cls es' d (Some v'), v')
  | Raise x => Raise x
  end.
Proof.
  simpl.
  match goal with
  | |- context [match ?F es ?v0 with _ => _ end] =>
      assert (H : forall es v, F es v = validate_elements es v)
  end.
  { clear. induction es as [|[k e] es IH]; intros v; [reflexivity|].
    simpl. destruct e as [i|g]; simpl.
    - destruct (ConfigItem.validate i); [rewrite IH|]; reflexivity.
    - destruct (validate g) as [[g' gv]|x]; [rewrite IH|]; reflexivity. }
  rewrite H. reflexivity.
Qed.

(** One round of the loop that returns. *)
Lemma validate_elements_cons k e es v es1 v1 :
  validate_elements ((k, e) :: es) v = Ok (es1, v1) ->
  exists e' ev rest',
    validate_element e = Ok (e', ev)
    /\ validate_elements
         es (ConfigGroupValidation.add_element_validation k ev v)
       = Ok (rest', v1)
    /\ es1 = (k, e') :: rest'.
Proof.
  simpl. destruct (validate_element e) as [[e' ev]|x]; [|discriminate].
  destruct (validate_elements es _) as [[rest' v']|x] eqn:E; [|discriminate].
  intros H. inversion H. subst. exists e', ev, rest'. auto.
Qed.

(** [validate_elements()] keeps the group-level outcome of the validation
    object and the names of the elements. *)
Lemma validate_elements_fields es :
  forall v es' v',
    validate_elements es v = Ok (es', v') ->
    ConfigGroupValidation.passed v' = ConfigGroupValidation.passed v
    /\ ConfigGroupValidation.fail_reasons v'
       = ConfigGroupValidation.fail_reasons v
    /\ ConfigGroupValidation.fail_exceptions v'
       = ConfigGroupValidation.fail_exceptions v
    /\ Py.keys es' = Py.keys es.
Proof.
  induction es as [|[k e] es IH]; intros v es' v' H.
  - inversion H. subst. repeat split.
  - apply validate_elements_cons in H.
    destruct H as (e' & ev & rest' & _ & Hr & ->).
    destruct (IH _ _ _ Hr) as (Hp & Hre & Hx & Hk). simpl in *.
    rewrite Hp, Hre, Hx, Hk. repeat split.
Qed.

(** Entries under names that are not element names are left alone. *)
Lemma validate_elements_other es :
  forall v es' v' k,
    validate_elements es v = Ok (es', v') ->
    ~ In k (Py.keys es) ->
    Py.get k (ConfigGroupValidation.element_validation v')
    = Py.get k (ConfigGroupValidation.element_validation v).
Proof.
  induction es as [|[k0 e] es IH]; intros v es' v' k H Hk.
  - inversion H. reflexivity.
  - apply validate_elements_cons in H.
    destruct H as (e' & ev & rest' & _ & Hr & ->).
    simpl in Hk. rewrite (IH _ _ _ k Hr) by tauto.
    destruct v. simpl. apply get_set_neq. tauto.
Qed.

(** After [validate_elements()], every element name maps to the result of
    that element's own [validate()]. *)
Lemma validate_elements_entry es :
  forall v es' v' k e,
    validate_elements es v = Ok (es', v') ->
    NoDup (Py.keys es) -> In (k, e) es ->
    exists e' ev,
      validate_element e = Ok (e', ev)
      /\ In (k, e') es'
      /\ Py.get k (ConfigGroupValidation.element_validation v') = Some ev.
Proof.
  induction es as [|[k0 e0] es IH]; intros v es' v' k e H Hnd Hin.
  - destruct Hin.
  - apply validate_elements_cons in H.
    destruct H as (e' & ev & rest' & He & Hr & ->).
    inversion Hnd as [|? ? Hk0 Hnd']. subst.
    destruct Hin as [Hin|Hin].
    + inversion Hin. subst. exists e', ev.
      split; [assumption|]. split; [now left|].
      rewrite (@validate_elements_other _ _ _ _ _ Hr Hk0).
      destruct v. simpl. apply get_set_eq.
    + destruct (IH _ _ _ _ _ Hr Hnd' Hin) as (e1 & ev1 & H1 & H2 & H3).
      exists e1, ev1. split; [assumption|]. split; [now right | assumption].
Qed.

(** The loop raises only what the [validate()] of an element raises. *)
Lemma validate_elements_raises es :
  forall v x,
    validate_elements es v = Raise x ->
    exists k e, In (k, e) es /\ validate_element e = Raise x.
Proof.
  induction es as [|[k e] es IH]; intros v x; simpl; [discriminate|].
  destruct (validate_element e) as [[e' ev]|y] eqn:Ee.
  - destruct (validate_elements es _) as [[rest' v']|y] eqn:Er;
      [discriminate|].
    intros H. inversion H. subst y.
    destruct (IH _ _ Er) as (k0 & e0 & Hin & H0).
    exists k0, e0. split; [now right | assumption].
  - intros H. inversion H. subst. exists k, e. split; [now left | assumption].
Qed.

(** The elements after the loop, one by one. *)
Lemma validate_elements_pointwise es :
  forall v es' v',
    validate_elements es v = Ok (es', v') ->
    Forall2 (fun ke ke' =>
               fst ke' = fst ke
               /\ exists ev, validate_element (snd ke) = Ok (snd ke', ev))
            es es'.
Proof.
  induction es as [|[k e] es IH]; intros v es' v' H.
  - inversion H. constructor.
  - apply validate_elements_cons in H.
    destruct H as (e' & ev & rest' & He & Hr & ->).
    constructor; [|eapply IH; eassumption].
    simpl. split; [reflexivity|]. now exists ev.
Qed.

Lemma group_passed_spec v :
  ConfigGroupValidation.group_passed v = true <->
  (forall k cv, In (k, cv) (ConfigGroupValidation.element_validation v) ->
                ConfigGroupValidation.validation_passed cv = true).
Proof.
  unfold ConfigGroupValidation.group_passed, Py.values.
  rewrite forallb_forall. split.
  - intros H k cv Hin. apply H. change cv with (snd (k, cv)).
    now apply in_map.
  - intros H cv Hin. apply in_map_iff in Hin.
    destruct Hin as [[k cv'] [E Hin]]. simpl in E. subst. eauto.
Qed.

(** The sample groups are what their constructors return. *)
Lemma samples_constructed :
  ConfigItem.init (VInt 5) None (Some Samples.int_props) = Ok Samples.item5
  /\ ConfigItem.init (VStr "abc") None (Some Samples.int_props)
     = Ok Samples.item_abc
  /\ init "Leaf" [("x", Item Samples.item_abc)] None = Ok Samples.leaf_group
  /\ init "Mid" [("n", Item Samples.item5);
                 ("leaf", Group Samples.leaf_group)] None
     = Ok Samples.mid_group
  /\ init "Top" [("mid", Group Samples.mid_group)] None
     = Ok Samples.top_group
  /\ init "Sub" [("m", Item Samples.item5)] None = Ok Samples.sub_group
  /\ init "GameMode" [("n", Item Samples.item5);
                      ("sub", Group Samples.sub_group)] None
     = Ok Samples.fresh_root
  /\ init "GameMode" [("n", Item Samples.item5);
                      ("sub", Group Samples.sub_group)] (Some "custom")
     = Ok Samples.documented_root
  /\ ConfigItem.init (VInt 5) None (Some Samples.default_props)
     = Ok Samples.item5_unlisted
  /\ init "Unlisted" [("u", Item Samples.item5_unlisted)] None
     = Ok Samples.unlisted_group.
Proof. repeat split. Qed.

End GroupValidate.

(* ------------------------------------------------------------------ *)
(** ** The outcome of a group *)

Section GroupOutcome.

Import ConfigGroup.

(** C3 as stated fails: a group whose only item fails validation has, after
    [validate()], [passed] true and no group-level failure, while the
    validation stored for the item has [passed] false. *)
Lemma C3_counterexample :
  let v := Samples.leaf_validation in
  ConfigItem.init (VStr "abc") None (Some Samples.int_props)
  = Ok Samples.item_abc
  /\ init "Leaf" [("x", Item Samples.item_abc)] None = Ok Samples.leaf_group
  /\ validate Samples.leaf_group = Ok (Samples.leaf_group, v)
  /\ ConfigGroupValidation.passed v = true
  /\ ConfigGroupValidation.fail_reasons v = []
  /\ (exists xv,
        ItemTypeProperties.validate Samples.int_props (VStr "abc") = Ok xv
        /\ Py.get "x" (ConfigGroupValidation.element_validation v)
           = Some (ConfigGroupValidation.Item xv)
        /\ ConfigItemValidation.passed xv = false)
  /\ ~ (ConfigGroupValidation.passed v = true <->
        (ConfigGroupValidation.fail_reasons v = []
         /\ forall k cv,
             In (k, cv) (ConfigGroupValidation.element_validation v) ->
             ConfigGroupValidation.validation_passed cv = true)).
Proof.
  cbv zeta. split; [reflexivity|]. split; [reflexivity|].
  split; [reflexivity|]. split; [reflexivity|]. split; [reflexivity|].
  split.
  - eexists. split; [reflexivity|]. split; reflexivity.
  - intros [H _]. destruct (H eq_refl) as [_ Hall].
    specialize (Hall "x" _ (or_introl eq_refl)). discriminate.
Qed.

(** C3, amended.  When [validate()] returns, it has stored and returns
    the validation object of the group, a new one on the first call.
    Its [passed] flag and its group-level failures are what they were
    before the call: they only record [add_validation] calls and do not
    depend on the children.  Every element name maps in
    [element_validation] to the result of the element's own
    [validate()], and the [group_passed] property is true exactly when
    every entry of [element_validation] has [passed] true.  [validate()]
    raises only what the [validate()] of one of the elements raises. *)
Theorem C3_validate_keeps_passed_apart :
  forall g : t,
    NoDup (Py.keys (get_config_elements g)) ->
    let v0 := match validation g with
              | Some v => v
              | None => ConfigGroupValidation.new
              end in
    (forall g' v,
        validate g = Ok (g', v) ->
        validation g' = Some v
        /\ ConfigGroupValidation.passed v = ConfigGroupValidation.passed v0
        /\ ConfigGroupValidation.fail_reasons v
           = ConfigGroupValidation.fail_reasons v0
        /\ ConfigGroupValidation.fail_exceptions v
           = ConfigGroupValidation.fail_exceptions v0
        /\ (forall k e,
              In (k, e) (get_config_elements g) ->
              exists e' ev,
                validate_element e = Ok (e', ev)
                /\ Py.get k (ConfigGroupValidation.element_validation v)
                   = Some ev)
        /\ (ConfigGroupValidation.group_passed v = true <->
            forall k cv,
              In (k, cv) (ConfigGroupValidation.element_validation v) ->
              ConfigGroupValidation.validation_passed cv = true))
    /\ (forall x,
          validate g = Raise x ->
          exists k e,
            In (k, e) (get_config_elements g)
            /\ validate_element e = Raise x).
Proof.
  intros [cls es d vo] Hnd v0. rewrite validate_eq.
  simpl in Hnd. simpl validation in v0. fold v0.
  destruct (validate_elements es v0) as [[es' v']|y] eqn:E.
  - split; [|intros x H; discriminate].
    intros g' v H. inversion H. subst g' v. clear H.
    destruct (@validate_elements_fields _ _ _ _ E) as (Hp & Hr & Hx & _).
    split; [reflexivity|]. split; [assumption|]. split; [assumption|].
    split; [assumption|]. split; [|apply group_passed_spec].
    intros k e Hin. simpl in Hin.
    destruct (@validate_elements_entry _ _ _ _ _ _ E Hnd Hin)
      as (e' & ev & He & _ & Hg).
    exists e', ev. auto.
  - split; [intros g' v H; discriminate|].
    intros x H. inversion H. subst y.
    apply (@validate_elements_raises _ _ _ E).
Qed.

Lemma C3_validate_keeps_passed_apart_witness :
  validate Samples.leaf_group
  = Ok (Samples.leaf_group, Samples.leaf_validation)
  /\ ConfigGroupValidation.passed Samples.leaf_validation = true
  /\ exists e' ev,
       validate_element (Item Samples.item_abc) = Ok (e', ev)
       /\ Py.get "x" (ConfigGroupValidation.element_validation
                        Samples.leaf_validation)
          = Some ev.
Proof.
  assert (Hnd : NoDup (Py.keys (get_config_elements Samples.leaf_group))).
  { simpl. constructor; [intros [] | constructor]. }
  destruct (proj1 (C3_validate_keeps_passed_apart Samples.leaf_group Hnd)
                  Samples.leaf_group Samples.leaf_validation eq_refl)
    as (_ & Hp & _ & _ & He & _).
  split; [reflexivity|]. split.
  - rewrite Hp. reflexivity.
  - apply He. simpl. now left.
Defined.

(** [to_dict] is the loop over the entries started from the group's own
    failures. *)
Lemma to_dict_d_eq p reasons excs ev :
  ConfigGroupValidation.to_dict_d (ConfigGroupValidation.mk p reasons excs ev)
  = to_dict_loop ev (if p then [] else [("group", EList reasons)]).
Proof.
  simpl.
  match goal with
  | |- ?F ev _ = to_dict_loop ev _ =>
      assert (H : forall ev d, F ev d = to_dict_loop ev d); [| apply H]
  end.
  clear. induction ev as [|[e [iv|gv]] ev IH]; intros d; simpl;
    [reflexivity| |].
  - destruct (negb (ConfigItemValidation.passed iv)); apply IH.
  - destruct (negb (ConfigGroupValidation.group_passed gv)
              || negb (ConfigGroupValidation.passed gv)) eqn:E; simpl.
    + apply IH.
    + apply orb_false_iff in E. destruct E as [_ E]. rewrite E. apply IH.
Qed.

Lemma set_not_nil (V : Type) k (x : V) d : Py.set k x d <> [].
Proof. destruct d as [|[k' x'] d]; simpl; [|destruct (String.eqb k k')]; discriminate. Qed.

Lemma to_dict_loop_nil items :
  forall d,
    to_dict_loop items d = [] <->
    d = [] /\ forallb (fun kv => negb (entry_reported (snd kv))) items = true.
Proof.
  induction items as [|[e v] items IH]; intros d; simpl.
  - tauto.
  - rewrite IH. unfold entry_reported.
    destruct v as [iv|gv]; simpl.
    + destruct (negb (ConfigItemValidation.passed iv)); simpl.
      * split; [intros [H _]; now apply set_not_nil in H
               | intros [_ H]; discriminate].
      * tauto.
    + destruct (negb (ConfigGroupValidation.group_passed gv)
                || negb (ConfigGroupValidation.passed gv)); simpl.
      * split; [intros [H _]; now apply set_not_nil in H
               | intros [_ H]; discriminate].
      * tauto.
Qed.

(** What the code does: the root reports ["Passed"] exactly when its own
    [passed] flag is true and no entry of its [element_validation] is
    reported, which looks at the [passed] flags of the children and, for
    a child group, of that group's own entries, and no further. *)
Lemma to_dict_passed_iff v name :
  ConfigGroupValidation.to_dict v name true = [(name, EStr "Passed")] <->
  ConfigGroupValidation.passed v = true
  /\ forallb (fun kv => negb (entry_reported (snd kv)))
             (ConfigGroupValidation.element_validation v) = true.
Proof.
  destruct v as [p reasons excs ev].
  unfold ConfigGroupValidation.to_dict. rewrite to_dict_d_eq. simpl.
  pose proof (to_dict_loop_nil ev
                (if p then [] else [("group", EList reasons)])) as H.
  destruct (to_dict_loop ev _) as [|x l] eqn:E.
  - split; [intros _ | reflexivity].
    destruct (proj1 H eq_refl) as [Hd Hall]. split; [|assumption].
    destruct p; [reflexivity | discriminate].
  - split; [discriminate|]. intros [Hp Hall]. subst p.
    discriminate (proj2 H (conj eq_refl Hall)).
Qed.

(** C7 (the code departs from the claim).  The item [x] of
    [Samples.top_group] fails validation three levels below the root, and
    the error tree of the root is the ["Passed"] sentinel: [to_dict] asks
    each child group for [group_passed] and [passed], and neither looks
    further than the validations of the child's own elements.  One level
    higher, for [Samples.mid_group], the same failure is reported on its
    path.  The three groups are what their constructors return. *)
Theorem C7_deep_failure_reported_as_passed :
  init "Leaf" [("x", Item Samples.item_abc)] None = Ok Samples.leaf_group
  /\ init "Mid" [("n", Item Samples.item5);
                 ("leaf", Group Samples.leaf_group)] None
     = Ok Samples.mid_group
  /\ init "Top" [("mid", Group Samples.mid_group)] None
     = Ok Samples.top_group
  /\ ConfigGroupValidation.to_dict (Samples.validation_of Samples.top_group)
                                   "root" true
     = [("root", EStr "Passed")]
  /\ ConfigGroupValidation.to_dict (Samples.validation_of Samples.mid_group)
                                   "root" true
     = [("root",
         EDict [("leaf",
                 EDict [("x",
                         EList ["Value abc is of type <class 'str'>, should be <class 'int'>."])])])]
  /\ (exists vm vl xv,
        Py.get "mid" (ConfigGroupValidation.element_validation
                        (Samples.validation_of Samples.top_group))
        = Some (ConfigGroupValidation.Group vm)
        /\ Py.get "leaf" (ConfigGroupValidation.element_validation vm)
           = Some (ConfigGroupValidation.Group vl)
        /\ Py.get "x" (ConfigGroupValidation.element_validation vl)
           = Some (ConfigGroupValidation.Item xv)
        /\ ItemTypeProperties.validate Samples.int_props (VStr "abc")
           = Ok xv
        /\ ConfigItemValidation.passed xv = false).
Proof.
  split; [reflexivity|]. split; [reflexivity|]. split; [reflexivity|].
  split; [reflexivity|]. split; [reflexivity|].
  eexists. eexists. eexists. repeat split.
Qed.

End GroupOutcome.

(* ------------------------------------------------------------------ *)
(** ** Setting a group from external data *)

Section SetFromDict.

Import ConfigGroup.

Lemma item_values_eq cls es d v :
  item_values (mk cls es d v)
  = map (fun ke => (fst ke, element_values (snd ke))) es.
Proof.
  simpl. induction es as [|[k [i|g]] es IH]; simpl; congruence.
Qed.

(** [validate()] changes no stored value. *)
Lemma item_values_validate g :
  forall g' v, validate g = Ok (g', v) -> item_values g' = item_values g.
Proof.
  induction g as [cls es d vo IH] using group_ind. intros g' v H.
  rewrite validate_eq in H.
  destruct (validate_elements es _) as [[es' v']|x] eqn:E; [|discriminate].
  inversion H. subst g' v. clear H. rewrite !item_values_eq.
  apply validate_elements_pointwise in E.
  induction E as [|[k e] [k' e'] es es' [Hk [ev He]] HF IHF];
    [reflexivity|].
  inversion IH as [|? ? Hh Ht]. subst. simpl in Hk, He, Hh. subst k'.
  simpl. rewrite (IHF Ht). f_equal. f_equal.
  destruct e as [i|c]; simpl in He.
  - destruct (ConfigItem.validate i); [|discriminate].
    inversion He. reflexivity.
  - destruct (validate c) as [[c' cv]|y] eqn:Ec; [|discriminate].
    inversion He. subst. simpl. f_equal. eapply Hh. reflexivity.
Qed.

Section Loop.

Variable set_elem : PyData -> element -> element.

(** The loop touches neither the class, the documentation, the
    validation object nor the set of element names. *)
Lemma loop_fields config_dict g :
  let g' := set_from_dict_loop set_elem config_dict g in
  class_name g' = class_name g
  /\ doc g' = doc g
  /\ validation g' = validation g
  /\ Py.keys (get_config_elements g') = Py.keys (get_config_elements g).
Proof.
  revert g. induction config_dict as [|[k v] rest IH]; intros g; simpl.
  - repeat split.
  - destruct (Py.get k (get_config_elements g)) as [el|] eqn:E.
    + destruct (IH (mk (class_name g)
                       (Py.set k (set_elem v el) (get_config_elements g))
                       (doc g) (validation g))) as (Hc & Hd & Hv & Hk).
      rewrite Hc, Hd, Hv, Hk. simpl. repeat split.
      apply keys_set_present. congruence.
    + apply IH.
Qed.

(** With distinct keys in the data, each element is treated once, by the
    value found under its name, and an element whose name is not a key is
    left as it is. *)
Lemma loop_get config_dict g k :
  NoDup (Py.keys config_dict) ->
  Py.get k (get_config_elements (set_from_dict_loop set_elem config_dict g))
  = match Py.get k (get_config_elements g) with
    | None => None
    | Some el =>
        match Py.get k config_dict with
        | Some v => Some (set_elem v el)
        | None => Some el
        end
    end.
Proof.
  revert g. induction config_dict as [|[k0 v0] rest IH]; intros g Hnd; simpl.
  - now destruct (Py.get k (get_config_elements g)).
  - inversion Hnd as [|? ? Hk0 Hnd']. subst.
    rewrite IH by assumption. clear IH.
    destruct (String.eqb k k0) eqn:E.
    + apply String.eqb_eq in E. subst k0.
      apply get_None_keys in Hk0. rewrite Hk0.
      destruct (Py.get k (get_config_elements g)) as [el|] eqn:Eg; simpl.
      * now rewrite get_set_eq.
      * now rewrite Eg.
    + apply String.eqb_neq in E.
      destruct (Py.get k0 (get_config_elements g)) as [el0|] eqn:Eg0; simpl.
      * rewrite get_set_neq by congruence. reflexivity.
      * reflexivity.
Qed.

End Loop.

(** C8.  With [root=False], [set_from_dict] returns for every group and
    every mapping.  Its loop keeps the class, the documentation, the
    validation object and the element names of the group; an element
    named by a key is replaced by the result of [set_from_dict(v, False)]
    when it is a group and the value a [dict], by the result of
    [set_value(v)] when it is an item and the value no [dict], and is
    kept otherwise; an element not named by the data is kept, and a key
    naming no element has no effect.  With [root=False] nothing else
    happens; with [root=True] the outcome is that of [validate()] run
    once on the group after the loop, which changes no stored value. *)
Theorem C8_set_from_dict_by_name :
  forall (config_dict : dict PyData) (g : t),
    NoDup (Py.keys config_dict) ->
    let g' := set_values config_dict g in
    set_from_dict config_dict false g = Ok g'
    /\ class_name g' = class_name g
    /\ doc g' = doc g
    /\ validation g' = validation g
    /\ Py.keys (get_config_elements g') = Py.keys (get_config_elements g)
    /\ (forall k,
          Py.get k (get_config_elements g')
          = match Py.get k (get_config_elements g), Py.get k config_dict with
            | Some (Group c), Some (Dict d) => Some (Group (set_values d c))
            | Some (Item i), Some (Scalar x) =>
                Some (Item (ConfigItem.set_value x i))
            | el, _ => el
            end)
    /\ (forall d c, set_from_dict d false c = Ok (set_values d c))
    /\ set_from_dict config_dict true g
       = match validate g' with
         | Ok (g'', _) => Ok g''
         | Raise x => Raise x
         end
    /\ (forall g'',
          set_from_dict config_dict true g = Ok g'' ->
          item_values g'' = item_values g').
Proof.
  intros config_dict g Hnd g'. subst g'. unfold set_from_dict, set_values.
  destruct (loop_fields set_element config_dict g) as (Hc & Hd & Hv & Hk).
  split; [reflexivity|].
  split; [assumption|]. split; [assumption|]. split; [assumption|].
  split; [assumption|]. split; [|split; [reflexivity|split; [reflexivity|]]].
  - intros k. rewrite loop_get by assumption.
    destruct (Py.get k (get_config_elements g)) as [[i|c]|];
      destruct (Py.get k config_dict) as [[x|d]|]; reflexivity.
  - intros g'' H.
    destruct (validate (set_from_dict_loop set_element config_dict g))
      as [[g1 v1]|x] eqn:E; [|discriminate].
    inversion H. subst g1. eapply item_values_validate. eassumption.
Qed.

Lemma C8_set_from_dict_by_name_witness :
  Py.get "x" (get_config_elements
                (set_values Samples.leaf_data Samples.leaf_group))
  = Some (Item (ConfigItem.set_value (VInt 9) Samples.item_abc))
  /\ Py.keys (get_config_elements
                (set_values Samples.leaf_data Samples.leaf_group))
     = ["x"]
  /\ set_from_dict Samples.leaf_data false Samples.leaf_group
     = Ok (set_values Samples.leaf_data Samples.leaf_group).
Proof.
  assert (Hnd : NoDup (Py.keys Samples.leaf_data)).
  { simpl. constructor.
    - intros [H|[]]. discriminate.
    - constructor; [intros [] | constructor]. }
  destruct (@C8_set_from_dict_by_name Samples.leaf_data Samples.leaf_group Hnd)
    as (H0 & _ & _ & _ & Hk & Hg & _).
  split; [|split].
  - rewrite Hg. reflexivity.
  - rewrite Hk. reflexivity.
  - exact H0.
Defined.

End SetFromDict.

(* ------------------------------------------------------------------ *)
(** ** Rebuilding a root from its values *)

Section RoundTrip.

Import ConfigGroup.

Lemma skeleton_eq cls es d v :
  skeleton (mk cls es d v)
  = mk cls (map (fun ke => (fst ke, skeleton_element (snd ke))) es) d v.
Proof.
  simpl. f_equal. induction es as [|[k [i|g]] es IH]; simpl; congruence.
Qed.

Lemma keys_map_snd (f : element -> element) (es : dict element) :
  Py.keys (map (fun ke => (fst ke, f (snd ke))) es) = Py.keys es.
Proof. unfold Py.keys. rewrite map_map. reflexivity. Qed.

(** Replacing an element by one with the same skeleton keeps the
    skeleton of the list. *)
Lemma skeleton_set k e e' (es : dict element) :
  Py.get k es = Some e ->
  skeleton_element e' = skeleton_element e ->
  map (fun ke => (fst ke, skeleton_element (snd ke))) (Py.set k e' es)
  = map (fun ke => (fst ke, skeleton_element (snd ke))) es.
Proof.
  intros Hg He. induction es as [|[k0 e0] es IH]; simpl in *; [discriminate|].
  destruct (String.eqb k k0) eqn:E; simpl.
  - inversion Hg. subst. now rewrite He.
  - now rewrite IH.
Qed.

(** The loop keeps the skeleton when the treatment of one element
    does. *)
Lemma loop_skeleton (f : PyData -> element -> element) config_dict :
  Forall (fun kv => forall el,
              skeleton_element (f (snd kv) el) = skeleton_element el)
         config_dict ->
  forall g, skeleton (set_from_dict_loop f config_dict g) = skeleton g.
Proof.
  induction 1 as [|[k v] rest Hf _ IH]; intros g; simpl; [reflexivity|].
  rewrite IH.
  destruct (Py.get k (get_config_elements g)) as [el|] eqn:E; [|reflexivity].
  destruct g as [cls es d vo].
  cbn [get_config_elements class_name doc validation] in *.
  rewrite !skeleton_eq. f_equal. eapply skeleton_set; eauto.
Qed.

Lemma set_element_skeleton v :
  forall el, skeleton_element (set_element v el) = skeleton_element el.
Proof.
  induction v as [x|d IH] using PyData_nested_ind; intros [i|g];
    try reflexivity.
  simpl. f_equal. now apply loop_skeleton.
Qed.

Lemma set_from_dict_loop_skeleton config_dict g :
  skeleton (set_from_dict_loop set_element config_dict g) = skeleton g.
Proof.
  apply loop_skeleton. apply Forall_forall. intros kv _ el.
  apply set_element_skeleton.
Qed.

Lemma well_named_eq cls es d v :
  well_named (mk cls es d v)
  <-> NoDup (Py.keys es) /\ Forall (fun ke => well_named_element (snd ke)) es.
Proof.
  simpl. apply and_iff_compat_l.
  induction es as [|[k [i|g]] es IH]; simpl.
  - split; auto.
  - rewrite IH. split.
    + intros H. constructor; simpl; auto.
    + intros H. now inversion H.
  - rewrite IH. split.
    + intros [H1 H2]. constructor; simpl; auto.
    + intros H. inversion H. auto.
Qed.

(** With the data naming the elements one by one, in order, the loop
    treats each element by the value of its name. *)
Lemma loop_aligned (f : PyData -> element -> element) cls d v :
  forall (data : dict PyData) (es pre : dict element),
    Py.keys data = Py.keys es ->
    NoDup (Py.keys (pre ++ es)) ->
    set_from_dict_loop f data (mk cls (pre ++ es) d v)
    = mk cls (pre ++ map (fun p => (fst (snd p), f (snd (fst p)) (snd (snd p))))
                         (combine data es))
         d v.
Proof.
  induction data as [|[k x] data IH]; intros [|[k' e] es] pre Hk Hnd;
    simpl in *; try discriminate.
  - reflexivity.
  - inversion Hk. subst k'.
    assert (Hpre : ~ In k (Py.keys pre)).
    { unfold Py.keys in *. rewrite map_app in Hnd. simpl in Hnd.
      apply NoDup_remove_2 in Hnd. rewrite in_app_iff in Hnd. tauto. }
    assert (Hget : forall y, Py.get k (pre ++ (k, y) :: es) = Some y
                             /\ forall z, Py.set k z (pre ++ (k, y) :: es)
                                          = pre ++ (k, z) :: es).
    { clear - Hpre. induction pre as [|[k1 e1] pre IHp]; intros y; simpl.
      - rewrite String.eqb_refl. auto.
      - simpl in Hpre. destruct (String.eqb k k1) eqn:E.
        + apply String.eqb_eq in E. subst. tauto.
        + destruct (IHp (fun H => Hpre (or_intror H)) y) as [H1 H2].
          split; [assumption|]. intros z. now rewrite H2. }
    destruct (Hget e) as [Hg Hs]. rewrite Hg, Hs.
    replace (pre ++ (k, f x e) :: es) with ((pre ++ [(k, f x e)]) ++ es)
      by (rewrite <- app_assoc; reflexivity).
    rewrite IH.
    + rewrite <- app_assoc. reflexivity.
    + assumption.
    + rewrite <- app_assoc. simpl.
      unfold Py.keys in *. rewrite map_app in *. simpl in *. assumption.
Qed.

(** A group that differs from [D] in item values only is rebuilt from
    its values by the loop run on [D]. *)
Lemma loop_item_values X :
  forall D, skeleton X = skeleton D -> well_named D ->
            set_from_dict_loop set_element (item_values X) D = X.
Proof.
  induction X as [cls es d v IH] using group_ind.
  intros [cls' es' d' v'] Hsk Hwn.
  rewrite !skeleton_eq in Hsk. inversion Hsk as [[Hc Hes Hd Hv]].
  subst cls' d' v'. clear Hsk.
  apply well_named_eq in Hwn. destruct Hwn as [Hnd Hch].
  rewrite item_values_eq.
  assert (Hkeys : Py.keys es = Py.keys es').
  { rewrite <- (keys_map_snd skeleton_element es),
            <- (keys_map_snd skeleton_element es'). now rewrite Hes. }
  rewrite (@loop_aligned set_element cls d v _ es' []).
  - simpl. f_equal. clear Hnd Hkeys.
    revert es' Hes Hch.
    induction es as [|[k e] es IHes]; intros [|[k' e'] es'] Hes Hch;
      simpl in *; try discriminate; [reflexivity|].
    inversion Hes as [[Hk He Hrest]]. subst k'.
    inversion IH as [|? ? Hh Ht]. inversion Hch as [|? ? Hw Hws]. subst.
    rewrite (IHes Ht es' Hrest Hws). f_equal. f_equal.
    destruct e as [i|g], e' as [i'|g']; simpl in *; try discriminate.
    + destruct i, i'. unfold ConfigItem.set_value in *. simpl in *.
      inversion He. subst. reflexivity.
    + inversion He as [Hg]. now rewrite (Hh g' Hg Hw).
  - unfold Py.keys in *. now rewrite map_map.
  - assumption.
Qed.

(** C9 as stated fails: a root constructed with [doc="custom"] passes
    validation, its values-only mapping carries no [doc], and the root
    rebuilt from that mapping has the [doc] of a new root, which is part
    of the content that equality reads. *)
Lemma C9_counterexample :
  init "GameMode" [("n", Item Samples.item5);
                   ("sub", Group Samples.sub_group)] None
  = Ok Samples.fresh_root
  /\ init "GameMode" [("n", Item Samples.item5);
                      ("sub", Group Samples.sub_group)] (Some "custom")
     = Ok Samples.documented_root
  /\ ConfigGroupValidation.to_dict
       (Samples.validation_of Samples.documented_root) "root" true
     = [("root", EStr "Passed")]
  /\ GameMode.create Samples.fresh_root Samples.no_legacy Samples.no_table
       (GameMode.to_dict_values_only Samples.documented_root)
       false true false
     = Ok Samples.fresh_root
  /\ doc Samples.fresh_root = None
  /\ doc Samples.documented_root = Some "custom"
  /\ GameMode.content Samples.fresh_root
     <> GameMode.content Samples.documented_root.
Proof. repeat split. discriminate. Qed.

(** C9, amended.  A root obtained from a new root through [create], from
    a mapping in either layout, is reproduced by [create] from its own
    values-only mapping read in the current layout: the rebuilt root has
    the same class, elements, values, documentation and validation, hence
    the same content for equality.  With [infer_legacy] on, this holds
    when the fingerprint does not take the values-only mapping for a
    legacy one. *)
Theorem C9_created_root_round_trip :
  forall (game_mode : t) (legacy_fingerprint : dict PyData -> bool)
         (legacy_table : dict PyData -> dict PyData),
    well_named game_mode ->
    forall (data : dict PyData) (legacy infer_legacy raise_errors : bool)
           (R : t),
      GameMode.create game_mode legacy_fingerprint legacy_table
                      data legacy infer_legacy raise_errors = Ok R ->
      let rebuilt infer :=
        GameMode.create game_mode legacy_fingerprint legacy_table
                        (GameMode.to_dict_values_only R) false infer false in
      rebuilt false = Ok R
      /\ (legacy_fingerprint (GameMode.to_dict_values_only R) = false ->
          rebuilt true = Ok R)
      /\ (forall R',
            rebuilt false = Ok R' ->
            GameMode.content R' = GameMode.content R).
Proof.
  intros D fp tb Hwn data legacy infer raise_errors R Hc rebuilt.
  assert (HR : exists data' v,
             validate (set_from_dict_loop set_element data' D) = Ok (R, v)).
  { unfold GameMode.create, GameMode.set_from_dict, set_from_dict,
      set_values in Hc.
    exists (if legacy || infer && fp data then tb data else data).
    destruct (validate (set_from_dict_loop set_element _ D))
      as [[g1 v1]|x] eqn:E; [|discriminate].
    exists v1. f_equal. f_equal.
    destruct raise_errors.
    - destruct (validation g1) as [v|]; [|discriminate].
      destruct (negb _); [discriminate|]. now inversion Hc.
    - now inversion Hc. }
  destruct HR as (data' & v & HR).
  assert (Hvals : GameMode.to_dict_values_only R
                  = item_values (set_from_dict_loop set_element data' D)).
  { unfold GameMode.to_dict_values_only.
    eapply item_values_validate. eassumption. }
  assert (Hrt : set_from_dict (GameMode.to_dict_values_only R) true D
                = Ok R).
  { unfold set_from_dict, set_values. rewrite Hvals, loop_item_values.
    - now rewrite HR.
    - apply set_from_dict_loop_skeleton.
    - assumption. }
  subst rebuilt. unfold GameMode.create, GameMode.set_from_dict.
  cbv beta zeta iota delta [orb andb].
  split; [now rewrite Hrt|]. split.
  - intros Hfp. rewrite Hfp. now rewrite Hrt.
  - intros R' E. rewrite Hrt in E. now inversion E.
Qed.

Lemma C9_created_root_round_trip_witness :
  exists R,
    GameMode.create Samples.fresh_root Samples.no_legacy Samples.no_table
                    Samples.root_data false true false = Ok R
    /\ Py.get "n" (GameMode.to_dict_values_only R) = Some (Scalar (VInt 3))
    /\ GameMode.create Samples.fresh_root Samples.no_legacy Samples.no_table
                       (GameMode.to_dict_values_only R) false true false
       = Ok R.
Proof.
  eexists. split; [reflexivity|]. split; [reflexivity|].
  assert (Hwn : well_named Samples.fresh_root).
  { simpl. repeat split; repeat constructor; simpl; intuition discriminate. }
  refine (proj1 (proj2 (@C9_created_root_round_trip
                          Samples.fresh_root Samples.no_legacy
                          Samples.no_table Hwn Samples.root_data
                          false true false _ eq_refl)) eq_refl).
Defined.

End RoundTrip.

(* ================================================================== *)
(** * Further properties of the code *)

(* ------------------------------------------------------------------ *)
(** ** Item validation and construction *)

Section ItemOutcome.

Import ItemTypeProperties.


(** X2.  For a default that is [None], a boolean, a number or a string,
    constructing properties raises exactly when the default is a
    non-empty string: the type failure of that default when
    [allowed_types] is a list, the [TypeError] of [validate] when it is
    [None].  Every other default, the empty string included, is accepted
    and the object is returned as it is.  The [IndexError] of
    [fail_exceptions[0]] never occurs. *)
Theorem X2_post_init_rejects_nonempty_strings_only :
  forall p : t,
    post_init p
    = match default p with
      | VStr s =>
          if String.eqb s ""
          then Ok p
          else match allowed_types p with
               | Some allowed =>
                   Raise (ConfigItemValidationError
                            (type_failure allowed (VStr s)))
               | None =>
                   Raise (TypeError "'NoneType' object is not iterable")
               end
      | _ => Ok p
      end.
Proof.
  intros p. unfold post_init.
  rewrite (validate_cases p (default p)), type_check_fails_spec.
  unfold null_check_fails.
  destruct (default p) as [|b|z|f|s] eqn:E; simpl.
  - reflexivity.
  - destruct b; reflexivity.
  - destruct (negb (z =? 0)%Z); reflexivity.
  - destruct (negb (PrimFloat.eqb f 0)); reflexivity.
  - destruct (String.eqb s ""); simpl; [reflexivity|].
    rewrite andb_false_r. destruct (allowed_types p); reflexivity.
Qed.

End ItemOutcome.

(* ------------------------------------------------------------------ *)
(** ** Elements by class *)

Section ElementsByClass.

Variable V : Type.

Lemma get_some_in_keys k (v : V) (d : dict V) :
  Py.get k d = Some v -> In k (Py.keys d).
Proof.
  intros H. destruct (in_dec string_dec k (Py.keys d)) as [Hin|Hnin];
    [assumption|].
  apply get_None_keys in Hnin. congruence.
Qed.

Lemma get_some_in k (v : V) (d : dict V) :
  Py.get k d = Some v -> In (k, v) d.
Proof.
  induction d as [|[k' v'] d IH]; simpl; [discriminate|].
  destruct (String.eqb k k') eqn:E.
  - apply String.eqb_eq in E. intros H. inversion H. subst. now left.
  - auto.
Qed.

Lemma keys_filter_incl (P : string * V -> bool) (d : dict V) k :
  In k (Py.keys (filter P d)) -> In k (Py.keys d).
Proof.
  unfold Py.keys. rewrite !in_map_iff. intros [kv [E Hin]].
  apply filter_In in Hin. exists kv. tauto.
Qed.

(** Looking a name up after filtering, when names are distinct. *)
Lemma get_filter (P : string * V -> bool) (d : dict V) k :
  NoDup (Py.keys d) ->
  Py.get k (filter P d)
  = match Py.get k d with
    | Some v => if P (k, v) then Some v else None
    | None => None
    end.
Proof.
  induction d as [|[k' v'] d IH]; intros Hnd; simpl; [reflexivity|].
  inversion Hnd as [|? ? Hk' Hnd']. subst.
  destruct (String.eqb k k') eqn:E.
  - apply String.eqb_eq in E. subst k'.
    destruct (P (k, v')) eqn:EP; simpl.
    + now rewrite String.eqb_refl.
    + destruct (Py.get k (filter P d)) as [v|] eqn:G; [|reflexivity].
      exfalso. apply Hk'. eapply keys_filter_incl, get_some_in_keys, G.
  - destruct (P (k', v')); simpl; [rewrite E|]; now apply IH.
Qed.

End ElementsByClass.

(** X3.  [get_config_elements(ConfigItem)] and
    [get_config_elements(ConfigGroup)] split the elements of a group:
    a name maps to an element in the first exactly when it names an
    item, in the second exactly when it names a group, and then to that
    same element; the two together hold as many entries as
    [get_config_elements()], which returns every element. *)
Theorem X3_get_config_elements_by_class :
  forall (g : ConfigGroup.t),
    NoDup (Py.keys (ConfigGroup.get_config_elements g)) ->
    let items := ConfigBase.get_config_elements (Some ClsConfigItem) g in
    let groups := ConfigBase.get_config_elements (Some ClsConfigGroup) g in
    (forall k,
        Py.get k items
        = match Py.get k (ConfigGroup.get_config_elements g) with
          | Some (ConfigGroup.Item i) => Some (ConfigGroup.Item i)
          | _ => None
          end)
    /\ (forall k,
          Py.get k groups
          = match Py.get k (ConfigGroup.get_config_elements g) with
            | Some (ConfigGroup.Group c) => Some (ConfigGroup.Group c)
            | _ => None
            end)
    /\ ConfigBase.get_config_elements None g
       = ConfigGroup.get_config_elements g
    /\ length items + length groups
       = length (ConfigGroup.get_config_elements g).
Proof.
  intros g Hnd items groups. subst items groups.
  unfold ConfigBase.get_config_elements.
  split; [|split; [|split]].
  - intros k. rewrite get_filter by assumption.
    destruct (Py.get k _) as [[i|c]|]; reflexivity.
  - intros k. rewrite get_filter by assumption.
    destruct (Py.get k _) as [[i|c]|]; reflexivity.
  - clear Hnd. induction (ConfigGroup.get_config_elements g)
      as [|[k [i|c]] es IH]; simpl; congruence.
  - clear Hnd. induction (ConfigGroup.get_config_elements g)
      as [|[k [i|c]] es IH]; simpl; lia.
Qed.

Lemma X3_get_config_elements_by_class_witness :
  Py.get "n" (ConfigBase.get_config_elements (Some ClsConfigItem)
                                             Samples.mid_group)
  = Some (ConfigGroup.Item Samples.item5)
  /\ Py.get "n" (ConfigBase.get_config_elements (Some ClsConfigGroup)
                                                Samples.mid_group)
     = None.
Proof.
  assert (Hnd : NoDup (Py.keys (ConfigGroup.get_config_elements
                                  Samples.mid_group))).
  { simpl. repeat constructor; simpl; intuition discriminate. }
  destruct (X3_get_config_elements_by_class Samples.mid_group Hnd)
    as (Hi & Hg & _).
  split; [rewrite Hi | rewrite Hg]; reflexivity.
Defined.

(* ------------------------------------------------------------------ *)
(** ** Validating and setting groups *)

Section GroupsAgain.

Import ConfigGroup.

Lemma set_same (V : Type) k (v : V) (d : dict V) :
  Py.get k d = Some v -> Py.set k v d = d.
Proof.
  induction d as [|[k' v'] d IH]; simpl; [discriminate|].
  destruct (String.eqb k k') eqn:E.
  - intros H. inversion H. reflexivity.
  - intros H. now rewrite IH.
Qed.

(** After the loop, element by element: the element is what its own
    [validate()] left of it, and its validation is stored under its
    name. *)
Lemma validate_elements_all es :
  forall v es' v',
    validate_elements es v = Ok (es', v') ->
    NoDup (Py.keys es) ->
    Forall2 (fun ke ke' =>
               fst ke' = fst ke
               /\ exists ev,
                   validate_element (snd ke) = Ok (snd ke', ev)
                   /\ Py.get (fst ke)
                             (ConfigGroupValidation.element_validation v')
                      = Some ev)
            es es'.
Proof.
  induction es as [|[k e] es IH]; intros v es' v' H Hnd.
  - inversion H. constructor.
  - apply validate_elements_cons in H.
    destruct H as (e' & ev & rest' & He & Hr & ->).
    inversion Hnd as [|? ? Hk Hnd']. subst.
    constructor; [|eapply IH; eassumption].
    simpl. split; [reflexivity|]. exists ev. split; [assumption|].
    rewrite (@validate_elements_other _ _ _ _ _ Hr Hk).
    destruct v. simpl. apply get_set_eq.
Qed.

Lemma get_map_snd (A B : Type) (f : A -> B) (d : dict A) k :
  Py.get k (map (fun ke => (fst ke, f (snd ke))) d)
  = option_map f (Py.get k d).
Proof.
  induction d as [|[k' a] d IH]; simpl; [reflexivity|].
  destruct (String.eqb k k'); [reflexivity | assumption].
Qed.

(** Elements whose validation is already stored are left as they are,
    and so is the validation object. *)
Lemma validate_elements_stable es v :
  Forall (fun ke =>
            exists ev,
              validate_element (snd ke) = Ok (snd ke, ev)
              /\ Py.get (fst ke) (ConfigGroupValidation.element_validation v)
                 = Some ev) es ->
  validate_elements es v = Ok (es, v).
Proof.
  induction 1 as [|[k e] es [ev [He Hg]] _ IH]; simpl; [reflexivity|].
  simpl in He, Hg. rewrite He.
  assert (Hv : ConfigGroupValidation.add_element_validation k ev v = v).
  { destruct v as [p r x evs]. unfold
      ConfigGroupValidation.add_element_validation. simpl in *.
    now rewrite set_same. }
  rewrite Hv, IH. reflexivity.
Qed.

Lemma validate_idempotent g :
  well_named g ->
  forall g' v, validate g = Ok (g', v) -> validate g' = Ok (g', v).
Proof.
  induction g as [cls es d vo IH] using group_ind. intros Hwn g' v H.
  apply well_named_eq in Hwn. destruct Hwn as [Hnd Hch].
  rewrite validate_eq in H.
  destruct (validate_elements es _) as [[es' v']|x] eqn:E; [|discriminate].
  inversion H. subst g' v. clear H.
  rewrite validate_eq, validate_elements_stable; [reflexivity|].
  pose proof (@validate_elements_all _ _ _ _ E Hnd) as Hall.
  clear E Hnd.
  induction Hall as [|[k e] [k' e'] es es' [Hk (ev & He & Hg)] HF IHF];
    constructor.
  - simpl in Hk, He, Hg. subst k'. simpl. exists ev.
    split; [|assumption].
    inversion IH as [|? ? Hh _]. inversion Hch as [|? ? Hw _]. subst.
    simpl in Hh, Hw. destruct e as [i|c]; simpl in He.
    + destruct (ConfigItem.validate i) as [iv|y] eqn:Ei; [|discriminate].
      inversion He. subst. simpl. now rewrite Ei.
    + destruct (validate c) as [[c' cv]|y] eqn:Ec; [|discriminate].
      inversion He. subst. simpl. now rewrite (Hh Hw _ _ eq_refl).
  - apply IHF.
    + now inversion IH.
    + now inversion Hch.
Qed.

(** X4.  Validation is idempotent: when [validate()] has returned,
    calling it again on the group, with no change in between, returns
    and leaves the group, every validation object in it and the
    returned validation exactly as the first call left them. *)
Theorem X4_validate_twice_is_validate_once :
  forall (g g' : t) (v : ConfigGroupValidation.t),
    well_named g ->
    validate g = Ok (g', v) ->
    validate g' = Ok (g', v).
Proof.
  intros g g' v Hwn H. exact (validate_idempotent g Hwn H).
Qed.

Lemma X4_validate_twice_is_validate_once_witness :
  init "Top" [("mid", Group Samples.mid_group)] None = Ok Samples.top_group
  /\ validate Samples.top_group
     = Ok (Samples.top_group, Samples.top_validation).
Proof.
  split; [reflexivity|].
  apply (@X4_validate_twice_is_validate_once
           (mk "Top" [("mid", Group Samples.mid_group)] None None)).
  - simpl. repeat split; repeat constructor; simpl; intuition discriminate.
  - reflexivity.
Defined.

(** An item is left alone by the [validate()] of its group. *)
Lemma validate_keeps_items g g' v k i :
  validate g = Ok (g', v) ->
  Py.get k (get_config_elements g) = Some (Item i) ->
  Py.get k (get_config_elements g') = Some (Item i).
Proof.
  destruct g as [cls es d vo]. rewrite validate_eq.
  destruct (validate_elements es _) as [[es' v']|x] eqn:E; [|discriminate].
  intros H. inversion H. subst g' v. clear H.
  cbn [get_config_elements]. apply validate_elements_pointwise in E.
  induction E as [|[k0 e] [k' e'] es es' [Hk [ev He]] HF IHF];
    [discriminate|].
  simpl in Hk, He. subst k'. simpl.
  destruct (String.eqb k k0); [|assumption].
  intros Hg. inversion Hg. subst e. simpl in He.
  destruct (ConfigItem.validate i); [|discriminate].
  inversion He. reflexivity.
Qed.

(** X5.  After [set_from_dict(data)] with [root=True] has returned, an
    item named in the data by a scalar holds that scalar and is
    otherwise untouched, its cached validation included, while the
    group's [element_validation] holds under the item's name the
    validation of the new value. *)
Theorem X5_set_from_dict_then_lookup :
  forall (data : dict PyData) (g g' : t) (k : string) (i : ConfigItem.t)
         (x : Value),
    NoDup (Py.keys data) ->
    NoDup (Py.keys (get_config_elements g)) ->
    Py.get k (get_config_elements g) = Some (Item i) ->
    Py.get k data = Some (Scalar x) ->
    set_from_dict data true g = Ok g' ->
    Py.get k (get_config_elements g')
    = Some (Item (ConfigItem.mk x (ConfigItem.doc i) (ConfigItem.properties i)
                                (ConfigItem.validation i)))
    /\ exists v r,
        validation g' = Some v
        /\ match ConfigItem.properties i with
           | Some p => ItemTypeProperties.validate p x
           | None => Ok ConfigItemValidation.new
           end = Ok r
        /\ Py.get k (ConfigGroupValidation.element_validation v)
           = Some (ConfigGroupValidation.Item r).
Proof.
  intros data g g' k i x Hd Hg Hi Hx. unfold set_from_dict, set_values.
  set (h := set_from_dict_loop set_element data g).
  assert (Hh : Py.get k (get_config_elements h)
               = Some (Item (ConfigItem.set_value x i))).
  { subst h. rewrite loop_get by assumption. now rewrite Hi, Hx. }
  assert (Hk : NoDup (Py.keys (get_config_elements h))).
  { subst h.
    destruct (loop_fields set_element data g) as (_ & _ & _ & E).
    now rewrite E. }
  destruct (validate h) as [[h' v]|y] eqn:Ev; [|discriminate].
  intros H. inversion H. subst h'. clear H.
  split.
  - exact (validate_keeps_items _ _ Ev Hh).
  - destruct h as [cls es d vo]. rewrite validate_eq in Ev.
    destruct (validate_elements es _) as [[es' v']|y] eqn:E; [|discriminate].
    inversion Ev. subst g' v. clear Ev.
    destruct (@validate_elements_entry _ _ _ _ _ _ E Hk
                (get_some_in _ _ Hh)) as (e' & ev & He & _ & Hget).
    simpl in He. unfold ConfigItem.validate in He. simpl in He.
    destruct (match ConfigItem.properties i with
              | Some p => ItemTypeProperties.validate p x
              | None => Ok ConfigItemValidation.new
              end) as [r|y] eqn:Er; [|discriminate].
    inversion He. subst. exists v', r. repeat split. exact Hget.
Qed.

Lemma X5_set_from_dict_then_lookup_witness :
  exists g',
    set_from_dict Samples.leaf_data true Samples.leaf_group = Ok g'
    /\ Py.get "x" (get_config_elements g')
       = Some (Item (ConfigItem.mk
                       (VInt 9) None (Some Samples.int_props)
                       Samples.abc_failure)).
Proof.
  eexists. split; [reflexivity|].
  refine (proj1 (@X5_set_from_dict_then_lookup
                   Samples.leaf_data Samples.leaf_group _ "x"
                   Samples.item_abc (VInt 9) _ _ eq_refl eq_refl eq_refl)).
  - simpl. repeat constructor; simpl; intuition discriminate.
  - simpl. repeat constructor; simpl; intuition discriminate.
Defined.

(** X6.  [set_from_dict] with [root=False] returns, and changes item
    values and nothing else: with every value blanked, the group after
    the call and the group before are the same, whatever the data - same
    classes, same element names in the same order, same documentation,
    same properties, same cached and group validation objects. *)
Theorem X6_set_from_dict_changes_values_only :
  forall (data : dict PyData) (g : t),
    exists g',
      set_from_dict data false g = Ok g'
      /\ skeleton g' = skeleton g.
Proof.
  intros data g. unfold set_from_dict, set_values.
  eexists. split; [reflexivity|].
  apply set_from_dict_loop_skeleton.
Qed.

(** X7.  [set_from_dict] with [root=True] can neither record nor clear a
    group-level failure: when it returns, the [passed] flag,
    [fail_reasons] and [fail_exceptions] of the group's validation after
    the call are those before it (those of a new validation object when
    the group had none), whatever the data.  It raises only what the
    [validate()] of an element raises after the values are set. *)
Theorem X7_set_from_dict_keeps_group_outcome :
  forall (data : dict PyData) (g : t),
    let before := match validation g with
                  | Some v => v
                  | None => ConfigGroupValidation.new
                  end in
    (forall g',
        set_from_dict data true g = Ok g' ->
        exists after,
          validation g' = Some after
          /\ ConfigGroupValidation.passed after
             = ConfigGroupValidation.passed before
          /\ ConfigGroupValidation.fail_reasons after
             = ConfigGroupValidation.fail_reasons before
          /\ ConfigGroupValidation.fail_exceptions after
             = ConfigGroupValidation.fail_exceptions before)
    /\ (forall x,
          set_from_dict data true g = Raise x ->
          exists k e,
            In (k, e) (get_config_elements (set_values data g))
            /\ validate_element e = Raise x).
Proof.
  intros data g before. subst before. unfold set_from_dict, set_values.
  destruct (loop_fields set_element data g) as (_ & _ & Hv & _).
  rewrite <- Hv.
  destruct (set_from_dict_loop set_element data g) as [cls es d vo].
  rewrite validate_eq. cbn [validation get_config_elements].
  destruct (validate_elements es _) as [[es' v']|y] eqn:E.
  - split; [|intros x H; discriminate].
    intros g' H. inversion H. subst g'. clear H.
    destruct (@validate_elements_fields _ _ _ _ E) as (Hp & Hr & He & _).
    exists v'. repeat split; assumption.
  - split; [intros g' H; discriminate|].
    intros x H. inversion H. subst y.
    apply (@validate_elements_raises _ _ _ E).
Qed.

Lemma X7_set_from_dict_keeps_group_outcome_witness :
  (exists g' after,
      set_from_dict Samples.leaf_data true Samples.leaf_group = Ok g'
      /\ validation g' = Some after
      /\ ConfigGroupValidation.passed after = true)
  /\ exists k e,
      In (k, e) (get_config_elements
                   (set_values [("u", Scalar VNone)] Samples.unlisted_group))
      /\ validate_element e
         = Raise (TypeError "'NoneType' object is not iterable").
Proof.
  split.
  - destruct (proj1 (X7_set_from_dict_keeps_group_outcome
                       Samples.leaf_data Samples.leaf_group) _ eq_refl)
      as (after & Hv & Hp & _).
    eexists. exists after. split; [reflexivity|]. split; assumption.
  - apply (proj2 (X7_set_from_dict_keeps_group_outcome
                    [("u", Scalar VNone)] Samples.unlisted_group)).
    reflexivity.
Defined.

End GroupsAgain.

(* ------------------------------------------------------------------ *)
(** ** Group validation objects *)

Section GroupValidationObjects.

Import ConfigGroupValidation.

Lemma append_if_absent_prefix (A : Type) (eqb : A -> A -> bool) xs :
  forall l, exists s,
      fold_left (fun l x => append_if_absent eqb x l) xs l = l ++ s.
Proof.
  induction xs as [|x xs IH]; intros l; simpl.
  - exists []. now rewrite app_nil_r.
  - destruct (IH (append_if_absent eqb x l)) as [s Hs]. rewrite Hs.
    unfold append_if_absent. destruct (existsb (eqb x) l).
    + now exists s.
    + exists (x :: s). now rewrite <- app_assoc.
Qed.

Lemma fold_append_if_absent_NoDup (A : Type) (eqb : A -> A -> bool)
      (eqb_eq : forall a b, eqb a b = true <-> a = b) xs :
  forall l, NoDup l ->
            NoDup (fold_left (fun l x => append_if_absent eqb x l) xs l).
Proof.
  induction xs as [|x xs IH]; intros l Hl; simpl; [assumption|].
  apply IH. now apply append_if_absent_NoDup.
Qed.

Lemma passed_add_validations calls v :
  passed (add_validations calls v)
  = match calls with [] => passed v | _ :: _ => false end.
Proof.
  unfold add_validations.
  destruct calls as [|c calls]; [reflexivity|]. simpl.
  assert (H : forall cs w,
             passed w = false ->
             passed (fold_left
                       (fun v c => add_validation (fst c) (snd c) v) cs w)
             = false).
  { induction cs as [|c' cs IH]; intros w Hw; simpl; [assumption|].
    now apply IH. }
  now apply H.
Qed.

(** X12.  A group validation only grows: starting from the object the
    constructor builds from its arguments, any run of [add_validation]
    calls keeps the failures already recorded at the front, in their
    order, records nothing twice, and leaves [passed] false as soon as
    one call was made; nothing sets it back to true. *)
Theorem X12_group_validation_only_grows :
  forall (p : bool) (r : option string) (e : option ExcObj)
         (calls : list (string * ExcObj)),
    let v0 := ConfigGroupValidation_init p r e in
    let v := add_validations calls v0 in
    (exists s, fail_reasons v = fail_reasons v0 ++ s)
    /\ (exists s, fail_exceptions v = fail_exceptions v0 ++ s)
    /\ NoDup (fail_reasons v)
    /\ NoDup (fail_exceptions v)
    /\ passed v = match calls with [] => p | _ :: _ => false end
    /\ element_validation v = [].
Proof.
  intros p r e calls v0 v. subst v.
  destruct (add_validations_fields calls v0) as (Hr & He & Hev).
  rewrite Hr, He, Hev, passed_add_validations.
  split; [apply append_if_absent_prefix|].
  split; [apply append_if_absent_prefix|].
  split; [|split; [|split; reflexivity]].
  - apply (fold_append_if_absent_NoDup String.eqb String.eqb_eq).
    subst v0. destruct r; simpl; repeat constructor; simpl; tauto.
  - apply (fold_append_if_absent_NoDup ExcObj_eqb ExcObj_eqb_eq).
    subst v0. destruct e; simpl; repeat constructor; simpl; tauto.
Qed.

End GroupValidationObjects.

(* ------------------------------------------------------------------ *)
(** ** The error tree *)

Section ErrorTreeShape.

Lemma set_absent (V : Type) k (x : V) (d : dict V) :
  ~ In k (Py.keys d) -> Py.set k x d = d ++ [(k, x)].
Proof.
  induction d as [|[k' x'] d IH]; simpl; [reflexivity|].
  intros H. destruct (String.eqb k k') eqn:E.
  - apply String.eqb_eq in E. subst. tauto.
  - rewrite IH; tauto.
Qed.

Lemma to_dict_loop_cons e v items d :
  to_dict_loop ((e, v) :: items) d
  = to_dict_loop items
      (if entry_reported v
       then Py.set e (snd (rendered_entry (e, v))) d
       else d).
Proof. destruct v; reflexivity. Qed.

Lemma to_dict_loop_fresh items :
  forall d,
    NoDup (Py.keys d ++ Py.keys items) ->
    to_dict_loop items d
    = d ++ map rendered_entry
               (filter (fun kv => entry_reported (snd kv)) items).
Proof.
  induction items as [|[e v] items IH]; intros d Hnd.
  - simpl. now rewrite app_nil_r.
  - assert (He : ~ In e (Py.keys d)).
    { apply NoDup_remove_2 in Hnd. rewrite in_app_iff in Hnd. tauto. }
    assert (Hrest : NoDup (Py.keys d ++ Py.keys items)).
    { now apply NoDup_remove_1 in Hnd. }
    rewrite to_dict_loop_cons. cbn [filter snd].
    destruct (entry_reported v) eqn:Er.
    + rewrite set_absent by assumption. rewrite IH.
      * cbn [map]. rewrite <- app_assoc.
        now destruct v.
      * unfold Py.keys in *. rewrite map_app, <- app_assoc. exact Hnd.
    + now apply IH.
Qed.

(** X9.  The error tree of a root is the ["Passed"] sentinel exactly
    when the root's own [passed] flag is true and no entry of its
    [element_validation] is reported, that is when every item entry has
    passed and every group entry has its own flag and its
    [group_passed] true; the entries of the child groups' own child
    groups are not looked into. *)
Theorem X9_error_tree_sentinel :
  forall (v : ConfigGroupValidation.t) (name : string),
    ConfigGroupValidation.to_dict v name true = [(name, EStr "Passed")]
    <-> ConfigGroupValidation.passed v = true
        /\ forallb (fun kv => negb (entry_reported (snd kv)))
                   (ConfigGroupValidation.element_validation v) = true.
Proof. intros v name. apply to_dict_passed_iff. Qed.

(** X10.  The error tree lists, in order, the group's own failures under
    ["group"] when its [passed] flag is false, then one entry for each
    reported element validation in the order of [element_validation] -
    the failure messages of a failing item, the error tree of a failing
    group - and nothing for the others.  Element names are distinct and
    none is ["group"]. *)
Theorem X10_error_tree_entries :
  forall v : ConfigGroupValidation.t,
    NoDup (Py.keys (ConfigGroupValidation.element_validation v)) ->
    ~ In "group" (Py.keys (ConfigGroupValidation.element_validation v)) ->
    ConfigGroupValidation.to_dict v "root" false
    = (if ConfigGroupValidation.passed v
       then []
       else [("group", EList (ConfigGroupValidation.fail_reasons v))])
      ++ map rendered_entry
             (filter (fun kv => entry_reported (snd kv))
                     (ConfigGroupValidation.element_validation v)).
Proof.
  intros [p reasons excs ev] Hnd Hg.
  unfold ConfigGroupValidation.to_dict. rewrite to_dict_d_eq.
  cbn [ConfigGroupValidation.passed ConfigGroupValidation.fail_reasons
       ConfigGroupValidation.element_validation] in *.
  apply to_dict_loop_fresh.
  destruct p; simpl; [assumption|]. now constructor.
Qed.

Lemma X10_error_tree_entries_witness :
  ConfigGroupValidation.to_dict
    (Samples.validation_of Samples.mid_group) "root" false
  = [("leaf",
      EDict [("x",
              EList ["Value abc is of type <class 'str'>, should be <class 'int'>."])])].
Proof.
  rewrite X10_error_tree_entries.
  - reflexivity.
  - simpl. repeat constructor; simpl; intuition discriminate.
  - simpl. intuition discriminate.
Defined.

End ErrorTreeShape.

(* ------------------------------------------------------------------ *)
(** ** Reading back what [to_dict] writes *)

Section ToDictReadBack.

Import ConfigGroup.

Variable properties_to_dict : ItemTypeProperties.t -> dict PyData.

Lemma in_set (V : Type) k (v : V) k' v' (d : dict V) :
  In (k, v) (Py.set k' v' d) -> (k, v) = (k', v') \/ In (k, v) d.
Proof.
  induction d as [|[k0 v0] d IH]; simpl.
  - intros [H|[]]. left. now inversion H.
  - destruct (String.eqb k' k0) eqn:E; simpl.
    + apply String.eqb_eq in E. subst k0.
      intros [H|H]; [left; now inversion H | right; now right].
    + intros [H|H]; [right; now left|].
      destruct (IH H); [now left | right; now right].
Qed.

Lemma in_dict_merge (V : Type) (b a : dict V) kv :
  In kv (dict_merge a b) -> In kv a \/ In kv b.
Proof.
  unfold dict_merge. revert a.
  induction b as [|[k v] b IH]; intros a; simpl; [tauto|].
  intros H. destruct (IH _ H) as [H1|H1]; [|tauto].
  destruct kv as [k0 v0]. apply in_set in H1.
  destruct H1 as [H1|H1]; [inversion H1; subst; tauto | tauto].
Qed.

Lemma ConfigGroup_to_dict_eq cls es d v :
  ConfigGroup_to_dict properties_to_dict (mk cls es d v)
  = dict_merge
      (match d with
       | Some s => [("doc", Scalar (VStr s))]
       | None => []
       end)
      (fold_left
         (fun acc ke =>
            Py.set (fst ke)
                   (Dict (element_to_dict properties_to_dict (snd ke))) acc)
         es []).
Proof.
  cbn [ConfigGroup_to_dict]. f_equal.
  match goal with
  | |- ?F es [] = _ =>
      assert (H : forall es acc,
                 F es acc
                 = fold_left
                     (fun acc ke =>
                        Py.set (fst ke)
                               (Dict (element_to_dict properties_to_dict
                                                      (snd ke))) acc)
                     es acc); [| apply H]
  end.
  clear. induction es as [|[k [i|g]] es IH]; intros acc;
    [reflexivity | apply IH | apply IH].
Qed.

Lemma in_element_dict es :
  forall acc k v,
    In (k, v)
       (fold_left
          (fun acc ke =>
             Py.set (fst ke)
                    (Dict (element_to_dict properties_to_dict (snd ke))) acc)
          es acc) ->
    In (k, v) acc
    \/ exists e, In (k, e) es
                 /\ v = Dict (element_to_dict properties_to_dict e).
Proof.
  induction es as [|[k0 e0] es IH]; intros acc k v; simpl; [tauto|].
  intros H. destruct (IH _ _ _ H) as [H1|[e [H1 H2]]].
  - apply in_set in H1. destruct H1 as [H1|H1]; [|tauto].
    inversion H1. subst. right. exists e0. tauto.
  - right. exists e. tauto.
Qed.

(** Data whose every value leaves the element of its name as it is
    leaves the group as it is. *)
Lemma loop_identity data :
  forall g,
    (forall k v el,
        In (k, v) data ->
        Py.get k (get_config_elements g) = Some el ->
        set_element v el = el) ->
    set_from_dict_loop set_element data g = g.
Proof.
  induction data as [|[k v] data IH]; intros g H; simpl; [reflexivity|].
  assert (Hstep : match Py.get k (get_config_elements g) with
                  | Some el =>
                      mk (class_name g)
                         (Py.set k (set_element v el) (get_config_elements g))
                         (doc g) (validation g)
                  | None => g
                  end = g).
  { destruct (Py.get k (get_config_elements g)) as [el|] eqn:E;
      [|reflexivity].
    rewrite (H k v el (or_introl eq_refl) E), (set_same _ _ E).
    now destruct g. }
  rewrite Hstep. apply IH. intros k' v' el Hin. apply H. now right.
Qed.

Lemma skeleton_lookup (es_h : dict element) :
  forall (es_g : dict element) k e el,
    map (fun ke => (fst ke, skeleton_element (snd ke))) es_h
    = map (fun ke => (fst ke, skeleton_element (snd ke))) es_g ->
    NoDup (Py.keys es_g) ->
    In (k, e) es_h ->
    Py.get k es_g = Some el ->
    skeleton_element e = skeleton_element el.
Proof.
  induction es_h as [|[k1 e1] es_h IH]; intros [|[k2 e2] es_g] k e el Hm Hnd;
    simpl in *; try discriminate; try tauto.
  inversion Hm as [[Hk He Hrest]]. subst k2.
  inversion Hnd as [|? ? Hk1 Hnd']. subst.
  intros [Hin|Hin].
  - inversion Hin. subst. rewrite String.eqb_refl.
    intros H. inversion H. now subst.
  - destruct (String.eqb k k1) eqn:E.
    + apply String.eqb_eq in E. subst k1. exfalso. apply Hk1.
      assert (Hkeys : Py.keys es_h = Py.keys es_g).
      { rewrite <- (keys_map_snd skeleton_element es_h),
                <- (keys_map_snd skeleton_element es_g). now rewrite Hrest. }
      rewrite <- Hkeys. change k with (fst (k, e)). now apply in_map.
    + now apply IH.
Qed.

Lemma no_element_named_eq name cls es d v :
  no_element_named name (mk cls es d v)
  <-> Py.get name es = None
      /\ Forall (fun ke => match snd ke with
                           | Item _ => True
                           | Group c => no_element_named name c
                           end) es.
Proof.
  simpl. apply and_iff_compat_l.
  induction es as [|[k [i|g]] es IH]; simpl.
  - split; auto.
  - rewrite IH. split.
    + intros H. constructor; simpl; auto.
    + intros H. now inversion H.
  - rewrite IH. split.
    + intros [H1 H2]. constructor; simpl; auto.
    + intros H. inversion H. auto.
Qed.

Lemma to_dict_not_read h :
  forall g,
    skeleton h = skeleton g -> well_named g -> no_element_named "doc" g ->
    set_from_dict_loop set_element
                       (ConfigGroup_to_dict properties_to_dict h) g = g.
Proof.
  induction h as [cls es d v IH] using group_ind.
  intros [cls' es' d' v'] Hsk Hwn Hdoc.
  rewrite !skeleton_eq in Hsk. inversion Hsk as [[Hc Hes Hd Hv]].
  clear Hsk. subst cls' d' v'.
  apply well_named_eq in Hwn. destruct Hwn as [Hnd Hch].
  apply no_element_named_eq in Hdoc. destruct Hdoc as [Hnone Hdocs].
  apply loop_identity. cbn [get_config_elements].
  intros k x el Hin Hget.
  rewrite ConfigGroup_to_dict_eq in Hin.
  apply in_dict_merge in Hin. destruct Hin as [Hin|Hin].
  - destruct d as [s|]; simpl in Hin; [|tauto].
    destruct Hin as [Hin|[]]. inversion Hin. subst. congruence.
  - apply in_element_dict in Hin. destruct Hin as [[]|[e [Hin Hx]]].
    subst x.
    pose proof (skeleton_lookup _ _ _ _ Hes Hnd Hin Hget) as Hske.
    pose proof (get_some_in _ _ Hget) as Hel.
    rewrite Forall_forall in IH, Hch, Hdocs.
    specialize (IH _ Hin). specialize (Hch _ Hel). specialize (Hdocs _ Hel).
    simpl in IH, Hch, Hdocs.
    destruct e as [i|c], el as [i'|c']; simpl in *; try discriminate.
    + reflexivity.
    + inversion Hske as [Hcc]. now rewrite (IH c' Hcc Hch Hdocs).
Qed.

(** X8.  What [to_dict()] writes, [set_from_dict] does not read: every
    item is written as a dictionary, and an item given a dictionary is
    skipped.  Applying the [to_dict()] of a group [h] to a group [g] of
    the same classes, names, documentation and validation, whatever the
    values of [h], leaves [g] as it is under [root=False] and merely
    validates it under [root=True], with the outcome of [validate()]. *)
Theorem X8_to_dict_is_not_read_back :
  forall (h g : t),
    skeleton h = skeleton g ->
    well_named g ->
    no_element_named "doc" g ->
    set_from_dict (ConfigGroup_to_dict properties_to_dict h) false g = Ok g
    /\ set_from_dict (ConfigGroup_to_dict properties_to_dict h) true g
       = match validate g with
         | Ok (g', _) => Ok g'
         | Raise x => Raise x
         end.
Proof.
  intros h g Hsk Hwn Hdoc. unfold set_from_dict, set_values.
  rewrite (to_dict_not_read h g Hsk Hwn Hdoc). split; reflexivity.
Qed.

End ToDictReadBack.

Lemma X8_to_dict_is_not_read_back_witness :
  let h := ConfigGroup.set_values Samples.root_data Samples.fresh_root in
  Py.get "n" (ConfigGroup_to_dict (fun _ => []) h)
  = Some (Dict [("value", Scalar (VInt 3));
                ("properties", Dict [])])
  /\ ConfigGroup.set_from_dict (ConfigGroup_to_dict (fun _ => []) h) false
                               Samples.fresh_root
     = Ok Samples.fresh_root.
Proof.
  intros h. split; [reflexivity|].
  refine (proj1 (@X8_to_dict_is_not_read_back
                   (fun _ => []) h Samples.fresh_root eq_refl _ _)).
  - simpl. repeat split; repeat constructor; simpl; intuition discriminate.
  - simpl. repeat split.
Defined.

(* ------------------------------------------------------------------ *)
(** ** Node positions *)

Section NodePositions.

Import NetworkCreator.

Open Scope Z_scope.

Lemma check_if_nearby_loop_spec pos values value :
  check_if_nearby_loop pos values value = true
  <-> exists i, In i values
                /\ Z.abs (fst i - fst pos) <= value
                /\ Z.abs (snd i - snd pos) <= value.
Proof.
  induction values as [|i rest IH]; simpl.
  - split; [discriminate | intros [i [[] _]]].
  - destruct ((fst i - value <=? fst pos) && (fst pos <=? fst i + value))
             eqn:E1;
      [destruct ((snd i - value <=? snd pos) && (snd pos <=? snd i + value))
                eqn:E2|].
    + split; [intros _ | reflexivity].
      apply andb_true_iff in E1, E2.
      rewrite !Z.leb_le in E1, E2. exists i. split; [now left | lia].
    + rewrite IH. split.
      * intros [j [Hj Hd]]. exists j. tauto.
      * intros [j [[Hj|Hj] Hd]]; [|exists j; tauto].
        subst j. exfalso.
        apply andb_false_iff in E2. rewrite !Z.leb_gt in E2. lia.
    + rewrite IH. split.
      * intros [j [Hj Hd]]. exists j. tauto.
      * intros [j [[Hj|Hj] Hd]]; [|exists j; tauto].
        subst j. exfalso.
        apply andb_false_iff in E1. rewrite !Z.leb_gt in E1. lia.
Qed.

(** X13.  [check_if_nearby] answers whether some position already taken
    lies within [value] of the given one in both coordinates.  Hence it
    is false for an empty dictionary and for a negative [value], and
    with a [value] of zero or more a position taken is near itself. *)
Theorem X13_check_if_nearby_is_a_distance_test :
  forall (pos : Pos) (full_list : dict Pos) (value : Z),
    (check_if_nearby pos full_list value = true
     <-> exists i, In i (Py.values full_list)
                   /\ Z.abs (fst i - fst pos) <= value
                   /\ Z.abs (snd i - snd pos) <= value)
    /\ check_if_nearby pos [] value = false
    /\ (if value <? 0
        then check_if_nearby pos full_list value = false
        else forall k, check_if_nearby pos (Py.set k pos full_list) value
                       = true).
Proof.
  intros pos full_list value. unfold check_if_nearby.
  split; [apply check_if_nearby_loop_spec|]. split; [reflexivity|].
  destruct (value <? 0) eqn:E.
  - apply Z.ltb_lt in E. apply not_true_is_false. intros H.
    apply check_if_nearby_loop_spec in H. destruct H as [i [_ [H _]]]. lia.
  - apply Z.ltb_ge in E. intros k. apply check_if_nearby_loop_spec.
    exists pos. split.
    + unfold Py.values. change pos with (snd (k, pos)) at 1.
      apply in_map. apply get_some_in. apply get_set_eq.
    + rewrite !Z.sub_diag. simpl. lia.
Qed.

Lemma not_nearby_not_in pos positions value :
  0 <= value ->
  check_if_nearby pos positions value = false ->
  ~ In pos (Py.values positions).
Proof.
  intros Hv Hc Hin.
  assert (H : check_if_nearby pos positions value = true).
  { apply check_if_nearby_loop_spec. exists pos.
    rewrite !Z.sub_diag. simpl. repeat split; [assumption | lia | lia]. }
  congruence.
Qed.

(** The position that the [while] loop settles on is on the grid and
    is none of those taken. *)
Lemma retry_position_spec size positions :
  forall (n : nat) draws rand_pos fails value p rest,
    (length draws <= n)%nat ->
    0 <= value ->
    in_grid size rand_pos ->
    retry_position draws size positions rand_pos fails value
    = Returns p rest ->
    in_grid size p /\ ~ In p (Py.values positions).
Proof.
  induction n as [|n IH]; intros draws rand_pos fails value p rest Hlen Hv Hg.
  - destruct draws; [|simpl in Hlen; lia]. simpl.
    destruct (check_if_nearby rand_pos positions value) eqn:E;
      [discriminate|].
    intros H. inversion H. subst. split; [assumption|].
    now apply (not_nearby_not_in _ _ Hv).
  - destruct draws as [|x [|y draws]]; simpl;
      destruct (check_if_nearby rand_pos positions value) eqn:E;
      try discriminate;
      try (intros H; inversion H; subst; split;
           [assumption | now apply (not_nearby_not_in _ _ Hv)]).
    destruct ((0 <=? x) && (x <=? size * 4) && (0 <=? y) && (y <=? size * 4))
             eqn:Er; [|discriminate].
    apply IH.
    + simpl in Hlen. lia.
    + match goal with
      | |- 0 <= (if ?c then _ else _) => destruct c; [|assumption]
      end.
      destruct (value - 1 =? -1) eqn:E1; [lia|].
      apply Z.eqb_neq in E1. lia.
    + repeat (apply andb_true_iff in Er; destruct Er as [Er ?]).
      rewrite !Z.leb_le in *. unfold in_grid. simpl. lia.
Qed.

Lemma randint_returns a b draws r rest :
  randint a b draws = Returns r rest ->
  a <= r <= b /\ draws = r :: rest.
Proof.
  unfold randint. destruct (b <? a); [discriminate|].
  destruct draws as [|r' rest']; [discriminate|].
  destruct ((a <=? r') && (r' <=? b)) eqn:E; [|discriminate].
  intros H. inversion H. subst.
  apply andb_true_iff in E. rewrite !Z.leb_le in E. tauto.
Qed.

Lemma str_nat_inj i j : str_nat i = str_nat j -> i = j.
Proof.
  unfold str_nat. intros H.
  apply Unsigned.to_uint_inj.
  assert (E : Some (Nat.to_uint i) = Some (Nat.to_uint j)).
  { rewrite <- !NilEmpty.usu. now rewrite H. }
  now inversion E.
Qed.

Lemma node_positions_from_spec size :
  forall count i positions draws result rest,
    Py.keys positions = map str_nat (seq 0 i) ->
    NoDup (Py.values positions) ->
    Forall (in_grid size) (Py.values positions) ->
    node_positions_from count i size positions draws = Returns result rest ->
    Py.keys result = map str_nat (seq 0 (i + count))
    /\ NoDup (Py.values result)
    /\ Forall (in_grid size) (Py.values result).
Proof.
  induction count as [|count IH]; intros i positions draws result rest
                                         Hk Hnd Hg; simpl.
  - intros H. inversion H. subst. rewrite Nat.add_0_r. auto.
  - destruct (randint 0 (size * 4) draws) as [x d1| |] eqn:E1;
      try discriminate.
    destruct (randint 0 (size * 4) d1) as [y d2| |] eqn:E2; try discriminate.
    destruct (retry_position d2 size positions (x, y) 0 5)
      as [p d3| |] eqn:E3; try discriminate.
    apply randint_returns in E1, E2.
    destruct (@retry_position_spec size positions (length d2) d2 (x, y)
                0%nat 5 p d3 (le_n _)) as [Hp Hnew];
      try assumption; try lia.
    { unfold in_grid. simpl. lia. }
    assert (Habs : ~ In (str_nat i) (Py.keys positions)).
    { rewrite Hk, in_map_iff. intros [j [Hj Hin]].
      apply str_nat_inj in Hj. subst j. apply in_seq in Hin. lia. }
    intros H. replace (i + S count)%nat with (S i + count)%nat by lia.
    apply (IH (S i) _ _ _ _) in H; [assumption| | |].
    + rewrite set_absent by assumption.
      unfold Py.keys in *. rewrite map_app, Hk, seq_S, map_app.
      reflexivity.
    + rewrite set_absent by assumption.
      unfold Py.values in *. rewrite map_app. simpl.
      apply NoDup_app; [assumption | repeat constructor; tauto |].
      intros q Hq [Hq'|[]]. subst q. contradiction.
    + rewrite set_absent by assumption.
      unfold Py.values in *. rewrite map_app. simpl.
      apply Forall_app. split; [assumption | now constructor].
Qed.

Lemma generate_node_positions_spec rows draws positions rest :
  generate_node_positions rows draws = Returns positions rest ->
  Py.keys positions = map str_nat (seq 0 rows)
  /\ NoDup (Py.values positions)
  /\ Forall (in_grid (Z.of_nat rows)) (Py.values positions).
Proof.
  intros H. unfold generate_node_positions in H.
  apply (@node_positions_from_spec (Z.of_nat rows) rows 0%nat [] draws) in H;
    [exact H | reflexivity | constructor | constructor].
Qed.

(** X14.  Whenever [generate_node_positions] returns, whatever the random
    draws were, it holds one position for each node, under the names
    ["0"], ["1"], ... in order; the positions are pairwise different and
    both coordinates of each lie between 0 and four times the number of
    nodes. *)
Theorem X14_node_positions_are_distinct :
  forall (rows : nat) (draws : list Z) (positions : dict Pos)
         (rest : list Z),
    generate_node_positions rows draws = Returns positions rest ->
    Py.keys positions = map str_nat (seq 0 rows)
    /\ NoDup (Py.values positions)
    /\ Forall (fun p => 0 <= fst p <= Z.of_nat rows * 4
                        /\ 0 <= snd p <= Z.of_nat rows * 4)
              (Py.values positions).
Proof.
  intros rows draws positions rest H.
  now apply generate_node_positions_spec in H.
Qed.

Lemma X14_node_positions_are_distinct_witness :
  generate_node_positions 2 [0; 0; 3; 3; 8; 8; 7; 7]
  = Returns [("0", (0, 0)); ("1", (8, 8))] [7; 7]
  /\ NoDup (Py.values [("0", (0, 0)); ("1", (8, 8))]).
Proof.
  split; [reflexivity|].
  apply (@X14_node_positions_are_distinct
           2 [0; 0; 3; 3; 8; 8; 7; 7] _ [7; 7]).
  reflexivity.
Defined.

Close Scope Z_scope.

End NodePositions.

(* ------------------------------------------------------------------ *)
(** ** Adjacency matrices *)

Section Matrices.

Import NetworkCreator.

Lemma axis_index_nat n a :
  (a < n)%nat -> axis_index n (Z.of_nat a) = Some a.
Proof.
  intros H. unfold axis_index.
  assert (E : ((0 <=? Z.of_nat a) && (Z.of_nat a <? Z.of_nat n))%Z = true).
  { apply andb_true_iff. rewrite Z.leb_le, Z.ltb_lt. lia. }
  rewrite E. now rewrite Nat2Z.id.
Qed.

Lemma link_nat a b m :
  (a < rows m)%nat -> (b < rows m)%nat ->
  link (Z.of_nat a) (Z.of_nat b) m = Ok (linked a b m).
Proof.
  intros Ha Hb. unfold link, set_cell. simpl.
  rewrite (axis_index_nat Ha), (axis_index_nat Hb). simpl.
  rewrite (axis_index_nat Ha), (axis_index_nat Hb). reflexivity.
Qed.

Lemma linked_simple a b m :
  simple_graph m -> a <> b -> (a < rows m)%nat -> (b < rows m)%nat ->
  simple_graph (linked a b m).
Proof.
  intros Hm Hab Ha Hb i j. destruct (Hm i j) as (Hs & Hd & Hv & Hr).
  unfold linked. simpl.
  destruct (Nat.eqb_spec i a), (Nat.eqb_spec i b), (Nat.eqb_spec j a),
    (Nat.eqb_spec j b); subst; simpl;
    repeat split; auto; try lia; try congruence; intros; lia.
Qed.

Lemma retry_position_never_raises draws :
  forall size positions rand_pos fails value e,
    retry_position draws size positions rand_pos fails value <> Raises e.
Proof.
  assert (H : forall n draws, (length draws <= n)%nat ->
              forall size positions rand_pos fails value e,
                retry_position draws size positions rand_pos fails value
                <> Raises e).
  { induction n as [|n IH]; intros ds Hlen size positions rand_pos fails
                                   value e.
    - destruct ds; [|simpl in Hlen; lia]. simpl.
      destruct (check_if_nearby _ _ _); discriminate.
    - destruct ds as [|x [|y ds]]; simpl;
        destruct (check_if_nearby _ _ _); try discriminate.
      destruct (_ && _)%bool; [|discriminate].
      apply IH. simpl in Hlen. lia. }
  intros. eapply H. apply le_n.
Qed.

Lemma randint_never_raises a b draws e :
  (a <= b)%Z -> randint a b draws <> Raises e.
Proof.
  intros H. unfold randint.
  assert (E : (b <? a)%Z = false) by (apply Z.ltb_ge; lia).
  rewrite E. destruct draws as [|r rest]; [discriminate|].
  destruct (_ && _)%bool; discriminate.
Qed.

Lemma generate_node_positions_never_raises n draws e :
  generate_node_positions n draws <> Raises e.
Proof.
  unfold generate_node_positions.
  generalize (@nil (string * Pos)) as positions. generalize 0%nat as i.
  assert (Hs : (0 <= Z.of_nat n * 4)%Z) by lia.
  revert Hs. generalize (Z.of_nat n) as size. intros size Hs.
  revert draws. induction n as [|n IH]; intros draws i positions; simpl;
    [discriminate|].
  destruct (randint 0 (size * 4) draws) as [x d1|e1|] eqn:E1;
    [| exfalso; exact (@randint_never_raises 0 (size * 4) draws e1 Hs E1)
     | discriminate].
  destruct (randint 0 (size * 4) d1) as [y d2|e2|] eqn:E2;
    [| exfalso; exact (@randint_never_raises 0 (size * 4) d1 e2 Hs E2)
     | discriminate].
  destruct (retry_position d2 size positions (x, y) 0 5) as [p d3|e3|] eqn:E3;
    [| exfalso;
       exact (@retry_position_never_raises d2 size positions (x, y)
                                           0%nat 5%Z e3 E3)
     | discriminate].
  apply IH.
Qed.

(** One row of the mesh keeps the matrix that of a graph without
    loops, and does not raise. *)
Lemma mesh_row_spec c :
  forall count i j adj draws,
    simple_graph adj -> (i < j)%nat -> (j + count <= rows adj)%nat ->
    match mesh_row count i j c adj draws with
    | Returns adj' _ => simple_graph adj' /\ rows adj' = rows adj
    | Raises _ => False
    | NoRun => True
    end.
Proof.
  induction count as [|count IH]; intros i j adj draws Hs Hij Hn; simpl;
    [tauto|].
  destruct (randint 0 99 draws) as [r d1|e1|] eqn:E1;
    [| apply (@randint_never_raises 0 99 draws e1); [lia | assumption]
     | exact I].
  destruct (draw_below r c).
  - rewrite link_nat by lia.
    specialize (IH i (S j) (linked i j adj) d1).
    destruct (mesh_row count i (S j) c (linked i j adj) d1); auto.
    + apply IH; [apply linked_simple; auto; lia | lia | simpl; lia].
    + apply IH; [apply linked_simple; auto; lia | lia | simpl; lia].
  - apply IH; [assumption | lia | lia].
Qed.

Lemma mesh_rows_spec c size :
  forall count i adj draws,
    simple_graph adj -> rows adj = size -> (i + count = size)%nat ->
    match mesh_rows count i size c adj draws with
    | Returns adj' _ => simple_graph adj' /\ rows adj' = size
    | Raises _ => False
    | NoRun => True
    end.
Proof.
  induction count as [|count IH]; intros i adj draws Hs Hr Hn; simpl;
    [tauto|].
  pose proof (@mesh_row_spec c (size - (i + 1)) i (i + 1) adj draws Hs) as H.
  destruct (mesh_row (size - (i + 1)) i (i + 1) c adj draws) as [a d|e|];
    [| apply H; lia | exact I].
  destruct H as [Ha Hra]; [lia | lia |].
  apply IH; [assumption | congruence | lia].
Qed.

Lemma zeros_simple n : simple_graph (zeros n).
Proof. intros i j. simpl. repeat split; auto; discriminate. Qed.

(** X17.  The mesh generator does not raise, whatever the size, the
    connectivity and the random draws, and the matrix it returns is
    that of a graph without loops on [size] nodes: symmetric, zero on
    the diagonal, zero or one elsewhere; it comes with one position for
    each node. *)
Theorem X17_mesh_is_a_simple_graph :
  forall (size : nat) (connectivity : float) (draws : list Z),
    (forall e,
        get_mesh_matrix_and_positions size connectivity draws <> Raises e)
    /\ (forall adj positions rest,
          get_mesh_matrix_and_positions size connectivity draws
          = Returns (adj, positions) rest ->
          rows adj = size
          /\ simple_graph adj
          /\ Py.keys positions = map str_nat (seq 0 size)).
Proof.
  intros size c draws. unfold get_mesh_matrix_and_positions.
  pose proof (@mesh_rows_spec c size size 0 (zeros size) draws
                              (zeros_simple size) eq_refl eq_refl) as H.
  destruct (mesh_rows size 0 size c (zeros size) draws) as [adj d|e|];
    [| contradiction | split; [discriminate | discriminate]].
  destruct H as [Hs Hr].
  pose proof (generate_node_positions_never_raises (rows adj) d) as Hn.
  destruct (generate_node_positions (rows adj) d) as [pos d'|e|] eqn:E.
  - split; [discriminate|]. intros adj' positions rest H.
    inversion H. subst adj' positions rest.
    apply generate_node_positions_spec in E.
    rewrite Hr in E. tauto.
  - exfalso. now apply (Hn e).
  - split; discriminate.
Qed.

Lemma X17_mesh_is_a_simple_graph_witness :
  exists adj positions rest,
    get_mesh_matrix_and_positions 2 0.5%float [10; 0; 0; 8; 8]%Z
    = Returns (adj, positions) rest
    /\ cell adj 0 1 = 1%Z
    /\ simple_graph adj.
Proof.
  eexists. eexists. eexists.
  split; [reflexivity|]. split; [reflexivity|].
  apply (proj2 (X17_mesh_is_a_simple_graph 2 0.5%float [10; 0; 0; 8; 8]%Z)
               _ _ _ eq_refl).
Defined.

Lemma randint_in_range a b draws r rest :
  randint a b draws = Returns r rest -> (a <= r <= b)%Z.
Proof. intros H. now apply randint_returns in H. Qed.

Section MeshByConnectivity.

Variable c : float.

Lemma linked_cells i j adj :
  rows (linked i j adj) = rows adj
  /\ cell (linked i j adj) i j = 1%Z
  /\ cell (linked i j adj) j i = 1%Z
  /\ (forall a b, cell adj a b = 1%Z -> cell (linked i j adj) a b = 1%Z).
Proof.
  unfold linked. simpl. rewrite !Nat.eqb_refl. simpl.
  split; [reflexivity|]. split; [now destruct (Nat.eqb i j && Nat.eqb j i)|].
  split; [reflexivity|]. intros a b Hab.
  destruct (Nat.eqb a j && Nat.eqb b i); [reflexivity|].
  destruct (Nat.eqb a i && Nat.eqb b j); [reflexivity | assumption].
Qed.

(** When every draw links, a row of the mesh links its node to every
    later node. *)
Lemma mesh_row_all :
  (forall r, (0 <= r <= 99)%Z -> draw_below r c = true) ->
  forall count i j adj draws adj' rest,
    (i < j)%nat -> (j + count = rows adj)%nat ->
    mesh_row count i j c adj draws = Returns adj' rest ->
    rows adj' = rows adj
    /\ (forall a b, cell adj a b = 1%Z -> cell adj' a b = 1%Z)
    /\ (forall b, (j <= b < j + count)%nat ->
                  cell adj' i b = 1%Z /\ cell adj' b i = 1%Z).
Proof.
  intros Hc. induction count as [|count IH];
    intros i j adj draws adj' rest Hij Hn; simpl.
  - intros H. inversion H. subst.
    split; [reflexivity|]. split; [auto | intros; lia].
  - destruct (randint 0 99 draws) as [r d1|e1|] eqn:E1; try discriminate.
    rewrite (Hc r (randint_in_range _ _ _ E1)).
    rewrite link_nat by lia. intros H.
    destruct (linked_cells i j adj) as (Hl0 & Hl1 & Hl2 & Hl3).
    apply IH in H; [|lia | rewrite Hl0; lia].
    destruct H as (Hrows & Hmono & Hrow).
    split; [congruence|]. split.
    + intros a b Hab. apply Hmono. now apply Hl3.
    + intros b Hb. destruct (Nat.eq_dec b j) as [->|Hne].
      * split; apply Hmono; assumption.
      * apply Hrow. lia.
Qed.

Lemma mesh_rows_all :
  (forall r, (0 <= r <= 99)%Z -> draw_below r c = true) ->
  forall size count i adj draws adj' rest,
    rows adj = size -> (i + count = size)%nat ->
    mesh_rows count i size c adj draws = Returns adj' rest ->
    (forall a b, cell adj a b = 1%Z -> cell adj' a b = 1%Z)
    /\ (forall a b, (i <= a < i + count)%nat -> (a < b < size)%nat ->
                    cell adj' a b = 1%Z /\ cell adj' b a = 1%Z).
Proof.
  intros Hc size. induction count as [|count IH];
    intros i adj draws adj' rest Hr Hn; simpl.
  - intros H. inversion H. subst. split; [auto | intros; lia].
  - destruct (mesh_row (size - (i + 1)) i (i + 1) c adj draws)
      as [a1 d1|e1|] eqn:E1; try discriminate.
    apply (mesh_row_all Hc) in E1; [|lia|lia].
    destruct E1 as (Hr1 & Hmono1 & Hrow1).
    intros H. apply IH in H; [|congruence|lia].
    destruct H as (Hmono & Hrows).
    split; [auto|].
    intros a b Ha Hb. destruct (Nat.eq_dec a i) as [->|Hne].
    + destruct (Hrow1 b) as [H1 H2]; [lia|]. split; now apply Hmono.
    + apply Hrows; lia.
Qed.

(** When no draw links, the mesh loops leave the matrix as it is. *)
Lemma mesh_row_none :
  (forall r, (0 <= r <= 99)%Z -> draw_below r c = false) ->
  forall count i j adj draws adj' rest,
    mesh_row count i j c adj draws = Returns adj' rest -> adj' = adj.
Proof.
  intros Hc. induction count as [|count IH];
    intros i j adj draws adj' rest; simpl.
  - intros H. now inversion H.
  - destruct (randint 0 99 draws) as [r d1|e1|] eqn:E1; try discriminate.
    rewrite (Hc r (randint_in_range _ _ _ E1)). apply IH.
Qed.

Lemma mesh_rows_none :
  (forall r, (0 <= r <= 99)%Z -> draw_below r c = false) ->
  forall size count i adj draws adj' rest,
    mesh_rows count i size c adj draws = Returns adj' rest -> adj' = adj.
Proof.
  intros Hc size. induction count as [|count IH];
    intros i adj draws adj' rest; simpl.
  - intros H. now inversion H.
  - destruct (mesh_row (size - (i + 1)) i (i + 1) c adj draws)
      as [a1 d1|e1|] eqn:E1; try discriminate.
    apply (mesh_row_none Hc) in E1. subst a1. apply IH.
Qed.

End MeshByConnectivity.

Lemma in_range_0_99 (P : Z -> bool) :
  forallb (fun n => P (Z.of_nat n)) (seq 0 100) = true ->
  forall r, (0 <= r <= 99)%Z -> P r = true.
Proof.
  intros H r Hr. rewrite forallb_forall in H.
  specialize (H (Z.to_nat r)). rewrite Z2Nat.id in H by lia.
  apply H. apply in_seq. lia.
Qed.

Lemma draw_below_one r : (0 <= r <= 99)%Z -> draw_below r 1%float = true.
Proof.
  apply (in_range_0_99 (fun r => draw_below r 1%float)).
  vm_compute. reflexivity.
Qed.

Lemma draw_below_zero r : (0 <= r <= 99)%Z -> draw_below r 0%float = false.
Proof.
  intros Hr. apply negb_true_iff.
  apply (in_range_0_99 (fun r => negb (draw_below r 0%float)));
    [vm_compute; reflexivity | assumption].
Qed.

(** X18.  With a connectivity of [1.0] the mesh generator links every
    pair of different nodes, and with a connectivity of [0.0] it links
    none, whatever the size and the random draws. *)
Theorem X18_mesh_full_and_empty :
  forall (size : nat) (draws : list Z) (adj : Matrix)
         (positions : dict Pos) (rest : list Z),
    (get_mesh_matrix_and_positions size 1%float draws
     = Returns (adj, positions) rest ->
     forall i j, (i < size)%nat -> (j < size)%nat -> i <> j ->
                 cell adj i j = 1%Z)
    /\ (get_mesh_matrix_and_positions size 0%float draws
        = Returns (adj, positions) rest ->
        forall i j, cell adj i j = 0%Z).
Proof.
  intros size draws adj positions rest.
  unfold get_mesh_matrix_and_positions. split.
  - destruct (mesh_rows size 0 size 1 (zeros size) draws)
      as [a d|e|] eqn:E; try discriminate.
    destruct (generate_node_positions (rows a) d) as [pos d'|e|];
      try discriminate.
    intros H. inversion H. subst a pos d'.
    apply (mesh_rows_all draw_below_one) in E; [|reflexivity|reflexivity].
    destruct E as [_ Hall]. intros i j Hi Hj Hij.
    destruct (Nat.lt_ge_cases i j).
    + apply (Hall i j); lia.
    + apply (Hall j i); lia.
  - destruct (mesh_rows size 0 size 0 (zeros size) draws)
      as [a d|e|] eqn:E; try discriminate.
    destruct (generate_node_positions (rows a) d) as [pos d'|e|];
      try discriminate.
    intros H. inversion H. subst a pos d'.
    apply (mesh_rows_none draw_below_zero) in E. subst adj. reflexivity.
Qed.

Lemma X18_mesh_full_and_empty_witness :
  exists adj positions rest,
    get_mesh_matrix_and_positions 2 1%float [99; 0; 0; 8; 8]%Z
    = Returns (adj, positions) rest
    /\ cell adj 1 0 = 1%Z.
Proof.
  eexists. eexists. eexists. split; [reflexivity|].
  apply (proj1 (X18_mesh_full_and_empty 2 [99; 0; 0; 8; 8]%Z _ _ _) eq_refl);
    lia.
Defined.

(** *** The ring *)

Lemma linked_inv a b m x y :
  cell (linked a b m) x y = 1%Z ->
  (x = b /\ y = a) \/ (x = a /\ y = b) \/ cell m x y = 1%Z.
Proof.
  unfold linked. simpl.
  destruct (Nat.eqb_spec x b), (Nat.eqb_spec y a); simpl; auto.
  - destruct (Nat.eqb_spec x a), (Nat.eqb_spec y b); simpl; auto.
  - destruct (Nat.eqb_spec x a), (Nat.eqb_spec y b); simpl; auto.
  - destruct (Nat.eqb_spec x a), (Nat.eqb_spec y b); simpl; auto.
Qed.

(** The loop of the ring links a node to the next one only, keeps the
    matrix that of a graph without loops, and does not raise. *)
Lemma ring_links_spec bp n :
  forall count i adj draws,
    simple_graph adj -> rows adj = n -> (i + count + 1 = n)%nat ->
    (forall a b, cell adj a b = 1%Z -> b = S a \/ a = S b) ->
    match ring_links count i bp adj draws with
    | Returns adj' _ =>
        simple_graph adj' /\ rows adj' = n
        /\ (forall a b, cell adj' a b = 1%Z -> b = S a \/ a = S b)
    | Raises _ => False
    | NoRun => True
    end.
Proof.
  induction count as [|count IH]; intros i adj draws Hs Hr Hn Hl; simpl;
    [tauto|].
  destruct (randint 1 99 draws) as [r d1|e1|] eqn:E1;
    [| apply (@randint_never_raises 1 99 draws e1); [lia | assumption]
     | exact I].
  destruct (draw_above r bp).
  - replace (Z.of_nat i + 1)%Z with (Z.of_nat (S i)) by lia.
    rewrite link_nat by lia.
    apply IH; [apply linked_simple; auto; lia | simpl; lia | lia |].
    intros a b Hab. apply linked_inv in Hab.
    destruct Hab as [[-> ->]|[[-> ->]|Hab]]; auto.
  - apply IH; [assumption | assumption | lia | assumption].
Qed.

(** X15.  For two nodes or more the ring generator does not raise,
    whatever the break probability and the random draws; the matrix it
    returns is that of a graph without loops on [ring_size] nodes, in
    which only nodes that follow one another on the ring are linked. *)
Theorem X15_ring_links_neighbours_only :
  forall (break_probability : float) (ring_size : nat) (draws : list Z),
    (2 <= ring_size)%nat ->
    (forall e,
        get_ring_matrix_and_positions break_probability ring_size draws
        <> Raises e)
    /\ (forall adj positions rest,
          get_ring_matrix_and_positions break_probability ring_size draws
          = Returns (adj, positions) rest ->
          rows adj = ring_size
          /\ simple_graph adj
          /\ (forall a b, cell adj a b = 1%Z -> ring_neighbours ring_size a b)
          /\ Py.keys positions = map str_nat (seq 0 ring_size)).
Proof.
  intros bp n draws Hn. unfold get_ring_matrix_and_positions.
  pose proof (@ring_links_spec bp n (n - 1) 0 (zeros n) draws
                               (zeros_simple n) eq_refl) as H.
  destruct (ring_links (n - 1) 0 bp (zeros n) draws) as [adj d|e|];
    [| exfalso; apply H; [lia | discriminate]
     | split; [discriminate | discriminate]].
  destruct H as (Hs & Hr & Hl); [lia | discriminate |].
  destruct (randint 1 99 d) as [r d1|e1|] eqn:E1;
    [| exfalso; apply (@randint_never_raises 1 99 d e1); [lia | assumption]
     | split; discriminate].
  assert (Hc : exists adj1,
             (if draw_above r bp then link (Z.of_nat n - 1) 0 adj else Ok adj)
             = Ok adj1
             /\ rows adj1 = n /\ simple_graph adj1
             /\ (forall a b, cell adj1 a b = 1%Z -> ring_neighbours n a b)).
  { destruct (draw_above r bp).
    - exists (linked (n - 1) 0 adj).
      replace (Z.of_nat n - 1)%Z with (Z.of_nat (n - 1)) by lia.
      change 0%Z with (Z.of_nat 0). rewrite link_nat by lia.
      split; [reflexivity|]. split; [exact Hr|].
      split; [apply linked_simple; auto; lia|].
      intros a b Hab. apply linked_inv in Hab. unfold ring_neighbours.
      destruct Hab as [[-> ->]|[[-> ->]|Hab]]; auto.
      destruct (Hl a b Hab); auto.
    - exists adj. split; [reflexivity|]. split; [exact Hr|].
      split; [exact Hs|]. intros a b Hab. unfold ring_neighbours.
      destruct (Hl a b Hab); auto. }
  destruct Hc as (adj1 & -> & Hr1 & Hs1 & Hl1).
  pose proof (generate_node_positions_never_raises (rows adj1) d1) as Hnr.
  destruct (generate_node_positions (rows adj1) d1) as [pos d'|e|] eqn:E.
  - split; [discriminate|]. intros adj' positions rest H.
    inversion H. subst adj' positions rest.
    apply generate_node_positions_spec in E.
    rewrite Hr1 in E. tauto.
  - exfalso. now apply (Hnr e).
  - split; discriminate.
Qed.

Lemma X15_ring_links_neighbours_only_witness :
  exists adj positions rest,
    get_ring_matrix_and_positions
      0.25%float 3 [50; 20; 50; 0; 0; 6; 6; 12; 12]%Z
    = Returns (adj, positions) rest
    /\ cell adj 0 1 = 1%Z /\ cell adj 1 2 = 0%Z /\ cell adj 2 0 = 1%Z
    /\ simple_graph adj.
Proof.
  eexists. eexists. eexists.
  split; [reflexivity|]. split; [reflexivity|].
  split; [reflexivity|]. split; [reflexivity|].
  apply (proj2 (@X15_ring_links_neighbours_only
                  0.25%float 3 [50; 20; 50; 0; 0; 6; 6; 12; 12]%Z
                  ltac:(lia)) _ _ _ eq_refl).
Defined.

(** X16.  When the draw for the closing link does not break it, the
    ring generator raises the [IndexError] of [numpy] for a ring of no
    node, and links the only node of a ring of one node to itself. *)
Theorem X16_ring_of_less_than_two :
  forall (break_probability : float) (r : Z) (draws : list Z),
    (1 <= r <= 99)%Z ->
    draw_above r break_probability = true ->
    get_ring_matrix_and_positions break_probability 0 (r :: draws)
    = Raises (IndexError "index -1 is out of bounds for axis 0 with size 0")
    /\ (forall adj positions rest,
          get_ring_matrix_and_positions break_probability 1 (r :: draws)
          = Returns (adj, positions) rest ->
          rows adj = 1%nat /\ cell adj 0 0 = 1%Z).
Proof.
  intros bp r draws Hr Hd. unfold get_ring_matrix_and_positions.
  assert (E : randint 1 99 (r :: draws) = Returns r draws).
  { unfold randint. simpl.
    assert (E1 : ((1 <=? r) && (r <=? 99))%Z = true).
    { apply andb_true_iff. rewrite !Z.leb_le. lia. }
    now rewrite E1. }
  split.
  - change (ring_links (0 - 1) 0 bp (zeros 0) (r :: draws))
      with (Returns (zeros 0) (r :: draws)).
    cbv beta iota. rewrite E, Hd. reflexivity.
  - change (ring_links (1 - 1) 0 bp (zeros 1) (r :: draws))
      with (Returns (zeros 1) (r :: draws)).
    cbv beta iota. rewrite E, Hd.
    change (Z.of_nat 1 - 1)%Z with (Z.of_nat 0). change 0%Z with (Z.of_nat 0).
    rewrite link_nat by (simpl; lia).
    intros adj positions rest H.
    destruct (generate_node_positions _ draws); try discriminate.
    inversion H. subst. split; reflexivity.
Qed.

Lemma X16_ring_of_less_than_two_witness :
  get_ring_matrix_and_positions 0.25%float 0 [50; 0; 0]%Z
  = Raises (IndexError "index -1 is out of bounds for axis 0 with size 0")
  /\ exists adj positions rest,
       get_ring_matrix_and_positions 0.25%float 1 [50; 0; 0]%Z
       = Returns (adj, positions) rest
       /\ cell adj 0 0 = 1%Z.
Proof.
  pose proof (@X16_ring_of_less_than_two 0.25%float 50%Z [0; 0]%Z
                ltac:(lia) eq_refl) as [H0 H1].
  split; [exact H0|].
  eexists. eexists. eexists. split; [reflexivity|].
  apply (H1 _ _ _ eq_refl).
Defined.

(** *** The star *)

Lemma mesh_row_links c :
  forall count i j adj draws adj' rest,
    (i < j)%nat -> (j + count <= rows adj)%nat ->
    mesh_row count i j c adj draws = Returns adj' rest ->
    forall a b,
      cell adj' a b = 1%Z ->
      cell adj a b = 1%Z
      \/ (a = i /\ j <= b < j + count)%nat
      \/ (b = i /\ j <= a < j + count)%nat.
Proof.
  induction count as [|count IH]; intros i j adj draws adj' rest Hij Hn;
    simpl.
  - intros H. inversion H. subst. auto.
  - destruct (randint 0 99 draws) as [r d1|e1|]; try discriminate.
    destruct (draw_below r c).
    + rewrite link_nat by lia. intros H a b Hab.
      apply IH with (a := a) (b := b) in H; [|lia|simpl; lia|assumption].
      destruct H as [H|[H|H]]; [|right; left; lia|right; right; lia].
      apply linked_inv in H.
      destruct H as [[-> ->]|[[-> ->]|H]];
        [right; right; lia | right; left; lia | auto].
    + intros H a b Hab.
      apply IH with (a := a) (b := b) in H; [|lia|lia|assumption].
      destruct H as [H|[H|H]]; [auto|right; left; lia|right; right; lia].
Qed.

Lemma group_bound i n gs k :
  (i < n)%nat -> (k <= gs)%nat -> (i * gs + k <= n * gs)%nat.
Proof.
  intros Hi Hk.
  pose proof (Nat.mul_le_mono_r (S i) n gs ltac:(lia)) as H.
  simpl in H. lia.
Qed.

Lemma in_group_inj gs g g' a : in_group gs g a -> in_group gs g' a -> g = g'.
Proof.
  unfold in_group. intros H H'.
  destruct (Nat.lt_trichotomy g g') as [L|[E|L]]; [|assumption|].
  - pose proof (@group_bound g g' gs gs L (le_n _)). lia.
  - pose proof (@group_bound g' g gs gs L (le_n _)). lia.
Qed.

(** The loops of one group keep every link within a group, keep the
    matrix that of a graph without loops, and do not raise. *)
Lemma star_group_spec c n gs i :
  (i < n)%nat ->
  forall count j adj draws,
    (j + count = gs)%nat ->
    simple_graph adj -> rows adj = (1 + n * gs)%nat ->
    within_groups n gs adj ->
    match star_group count j i gs c adj draws with
    | Returns adj' _ =>
        simple_graph adj' /\ rows adj' = (1 + n * gs)%nat
        /\ within_groups n gs adj'
    | Raises _ => False
    | NoRun => True
    end.
Proof.
  intros Hi. induction count as [|count IH];
    intros j adj draws Hj Hs Hr Hw; simpl; [tauto|].
  pose proof (@group_bound i n gs gs Hi (le_n _)) as Hb.
  pose proof (@mesh_row_spec c (gs - (j + 1)) (j + 1 + i * gs)
                             (j + 1 + 1 + i * gs) adj draws Hs) as H1.
  pose proof (@mesh_row_links c (gs - (j + 1)) (j + 1 + i * gs)
                              (j + 1 + 1 + i * gs) adj draws) as H2.
  destruct (mesh_row (gs - (j + 1)) (j + 1 + i * gs) (j + 1 + 1 + i * gs)
                     c adj draws) as [a1 d1|e1|];
    [| apply H1; lia | exact I].
  destruct H1 as [Hs1 Hr1]; [lia | lia |].
  apply IH; [lia | assumption | congruence |].
  intros a b Hab.
  destruct (H2 a1 d1 ltac:(lia) ltac:(lia) eq_refl a b Hab) as [H|[H|H]].
  - now apply Hw.
  - exists i. unfold in_group. split; [assumption | lia].
  - exists i. unfold in_group. split; [assumption | lia].
Qed.

Lemma star_groups_spec c n gs :
  forall count i adj draws,
    (i + count = n)%nat ->
    simple_graph adj -> rows adj = (1 + n * gs)%nat ->
    within_groups n gs adj ->
    match star_groups count i gs c adj draws with
    | Returns adj' _ =>
        simple_graph adj' /\ rows adj' = (1 + n * gs)%nat
        /\ within_groups n gs adj'
    | Raises _ => False
    | NoRun => True
    end.
Proof.
  induction count as [|count IH]; intros i adj draws Hi Hs Hr Hw; simpl;
    [tauto|].
  pose proof (@star_group_spec c n gs i ltac:(lia) gs 0 adj draws
                               eq_refl Hs Hr Hw) as H.
  destruct (star_group gs 0 i gs c adj draws) as [a1 d1|e1|];
    [| exact H | exact I].
  destruct H as (Hs1 & Hr1 & Hw1).
  apply IH; [lia | assumption | assumption | assumption].
Qed.

Lemma star_connectors_spec n gs :
  (1 <= gs)%nat ->
  forall count i adj draws,
    (i + count = n)%nat ->
    connected_below n gs i adj ->
    match star_connectors count i gs adj draws with
    | Returns adj' _ => connected_below n gs n adj'
    | Raises _ => False
    | NoRun => True
    end.
Proof.
  intros Hgs. induction count as [|count IH]; intros i adj draws Hi Hc;
    cbn [star_connectors].
  - assert (E : i = n) by lia. subst i. exact Hc.
  - destruct (randint 0 (Z.of_nat gs - 1) draws) as [k d1|e1|] eqn:E1;
      [| apply (@randint_never_raises 0 (Z.of_nat gs - 1) draws e1);
         [lia | assumption]
       | exact I].
    apply randint_in_range in E1.
    destruct Hc as (Hs & Hr & Hw & Hz & Hu).
    pose proof (@group_bound i n gs (S (Z.to_nat k)) ltac:(lia) ltac:(lia))
      as Hb.
    replace (1 + Z.of_nat i * Z.of_nat gs + k)%Z
      with (Z.of_nat (1 + i * gs + Z.to_nat k)) by lia.
    change 0%Z with (Z.of_nat 0). rewrite link_nat by lia.
    set (x := (1 + i * gs + Z.to_nat k)%nat).
    assert (Hx : in_group gs i x) by (unfold in_group, x; lia).
    apply IH; [lia|].
    split; [apply linked_simple; auto; unfold x; lia|].
    split; [exact Hr|]. split; [|split].
    + intros a b Ha Hb' Hab. apply linked_inv in Hab.
      destruct Hab as [[_ ->]|[[-> _]|Hab]]; [lia | lia | now apply Hw].
    + intros b Hab. apply linked_inv in Hab.
      destruct Hab as [[E _]|[[_ ->]|Hab]].
      * exfalso. unfold x in E. lia.
      * exists i. split; [lia | assumption].
      * destruct (Hz b Hab) as (g & Hg & Hgb). exists g. split; [lia|auto].
    + intros g Hg. destruct (Nat.eq_dec g i) as [->|Hne].
      * exists x. split; [assumption|].
        split; [exact (proj1 (proj2 (@linked_cells 0 x adj)))|].
        intros b' Hb' Hab. apply linked_inv in Hab.
        destruct Hab as [[E _]|[[_ ->]|Hab]]; [|reflexivity|].
        -- exfalso. unfold x in E. lia.
        -- destruct (Hz b' Hab) as (g' & Hg' & Hgb').
           pose proof (in_group_inj Hb' Hgb'). lia.
      * destruct (Hu g ltac:(lia)) as (b & Hgb & Hb1 & Hb2).
        exists b. split; [assumption|].
        split; [now apply (proj2 (proj2 (proj2 (@linked_cells 0 x adj))))|].
        intros b' Hb' Hab. apply linked_inv in Hab.
        destruct Hab as [[E _]|[[_ ->]|Hab]]; [| |now apply Hb2].
        -- exfalso. unfold x in E. lia.
        -- exfalso. apply Hne. exact (in_group_inj Hb' Hx).
Qed.

(** X19.  For groups of one node or more the star generator does not
    raise, whatever the connectivity and the random draws; the matrix it
    returns is that of a graph without loops on
    [1 + first_layer_size * group_size] nodes, in which two nodes other
    than the centre are linked only within one group, and every group
    has exactly one node linked to the centre, node [0]. *)
Theorem X19_star_groups_meet_at_the_centre_only :
  forall (first_layer_size group_size : nat) (group_connectivity : float)
         (draws : list Z),
    (1 <= group_size)%nat ->
    (forall e,
        get_star_matrix_and_positions first_layer_size group_size
                                      group_connectivity draws
        <> Raises e)
    /\ (forall adj positions rest,
          get_star_matrix_and_positions first_layer_size group_size
                                        group_connectivity draws
          = Returns (adj, positions) rest ->
          rows adj = (1 + first_layer_size * group_size)%nat
          /\ simple_graph adj
          /\ (forall a b, (1 <= a)%nat -> (1 <= b)%nat -> cell adj a b = 1%Z ->
                          exists g, (g < first_layer_size)%nat
                                    /\ in_group group_size g a
                                    /\ in_group group_size g b)
          /\ (forall g, (g < first_layer_size)%nat ->
                        exists b, in_group group_size g b
                                  /\ cell adj 0 b = 1%Z
                                  /\ forall b', in_group group_size g b' ->
                                                 cell adj 0 b' = 1%Z ->
                                                 b' = b)
          /\ Py.keys positions
             = map str_nat (seq 0 (1 + first_layer_size * group_size))).
Proof.
  intros n gs c draws Hgs. unfold get_star_matrix_and_positions.
  cbv zeta.
  assert (Hw0 : within_groups n gs (zeros (1 + n * gs))).
  { intros a b Hab. discriminate. }
  pose proof (@star_groups_spec c n gs n 0 (zeros (1 + n * gs)) draws
                eq_refl (zeros_simple _) eq_refl Hw0) as H.
  destruct (star_groups n 0 gs c (zeros (1 + n * gs)) draws) as [a1 d1|e1|];
    [| contradiction | split; discriminate].
  destruct H as (Hs1 & Hr1 & Hw1).
  assert (Hc : connected_below n gs 0 a1).
  { split; [assumption|]. split; [assumption|]. split; [|split].
    - intros a b _ _ Hab. now apply Hw1.
    - intros b Hab. destruct (Hw1 0%nat b Hab) as (g & _ & Hg & _).
      unfold in_group in Hg. lia.
    - intros g Hg. lia. }
  pose proof (@star_connectors_spec n gs Hgs n 0 a1 d1 eq_refl Hc) as H.
  destruct (star_connectors n 0 gs a1 d1) as [a2 d2|e2|];
    [| contradiction | split; discriminate].
  destruct H as (Hs2 & Hr2 & Hw2 & _ & Hu2).
  pose proof (generate_node_positions_never_raises (rows a2) d2) as Hnr.
  destruct (generate_node_positions (rows a2) d2) as [pos d'|e|] eqn:E.
  - split; [discriminate|]. intros adj' positions rest H.
    inversion H. subst adj' positions rest.
    apply generate_node_positions_spec in E.
    rewrite Hr2 in E. tauto.
  - exfalso. now apply (Hnr e).
  - split; discriminate.
Qed.

Lemma X19_star_groups_meet_at_the_centre_only_witness :
  exists adj positions rest,
    get_star_matrix_and_positions
      2 2 0.5%float [10; 90; 1; 0; 0; 0; 6; 6; 12; 12; 18; 18; 0; 12]%Z
    = Returns (adj, positions) rest
    /\ cell adj 1 2 = 1%Z /\ cell adj 3 4 = 0%Z
    /\ cell adj 0 2 = 1%Z /\ cell adj 0 3 = 1%Z
    /\ simple_graph adj.
Proof.
  eexists. eexists. eexists.
  split; [reflexivity|]. split; [reflexivity|]. split; [reflexivity|].
  split; [reflexivity|]. split; [reflexivity|].
  apply (proj2 (@X19_star_groups_meet_at_the_centre_only
                  2 2 0.5%float
                  [10; 90; 1; 0; 0; 0; 6; 6; 12; 12; 18; 18; 0; 12]%Z
                  ltac:(lia)) _ _ _ eq_refl).
Defined.

Lemma star_groups_of_none c :
  forall count i adj draws,
    star_groups count i 0 c adj draws = Returns adj draws.
Proof.
  induction count as [|count IH]; intros i adj draws; simpl;
    [reflexivity | apply IH].
Qed.

(** X20.  With groups of no node and one group or more, the star
    generator raises [ValueError] at its first draw of a connector,
    whatever the connectivity and the state of the random numbers. *)
Theorem X20_star_of_empty_groups_raises :
  forall (first_layer_size : nat) (group_connectivity : float)
         (draws : list Z),
    exists message,
      get_star_matrix_and_positions (S first_layer_size) 0
                                    group_connectivity draws
      = Raises (ValueError message).
Proof.
  intros n c draws. eexists. unfold get_star_matrix_and_positions.
  cbv zeta. rewrite star_groups_of_none. reflexivity.
Qed.

End Matrices.

